(** * whos-on-call-v3.py: on-call rotation to Slack usergroup

    A shallow embedding of the script: the PagerDuty results transformer,
    the primary/secondary reduction with its tie-break, the Slack directory
    pagination loop, [get_slack_id], and the top-level flow with its prints,
    requests and exits. *)

From Stdlib Require Import String Ascii ZArith OrdersEx Sorted.
From stdpp Require Import gmap strings list.

Local Open Scope Z_scope.
Local Open Scope string_scope.
Local Open Scope list_scope.

(** ** Data *)

(** One entry of the PagerDuty [oncalls] array. *)
Record pd_user := { pd_name : string; pd_email : string }.

Record pd_entry := {
  user : pd_user;
  escalation_level : Z;
  pd_start : string;
  pd_end : string
}.

(** The PagerDuty response: [r['oncalls']] and [r['more']]. *)
Record pd_response := { oncalls : list pd_entry; more : bool }.

(** The dicts built by [transform_pagerduty_results]. *)
Record oncall := {
  name : string;
  email : string;
  level : Z;
  start : string;
  end_ : string
}.

(** A Slack member: [member['profile']] is a dict whose keys the code tests
    for before reading them. *)
Record member := {
  id : string;
  deleted : bool;
  is_restricted : bool;
  profile : gmap string string
}.

(** [r['response_metadata']] is compared with the empty string and then
    indexed: it is a string or a dict. *)
Inductive metadata :=
| MetaStr (s : string)
| MetaDict (d : gmap string string).

(** One page of [users.list]; both keys may be missing. *)
Record page := {
  members : option (list member);
  response_metadata : option metadata
}.

(** ** Python exceptions and results *)

Inductive exn :=
| KeyError (key : string)
| IndexError
| TypeError
| SystemExit (code : Z).

Inductive result (A : Type) :=
| Ok (a : A)
| Raise (e : exn).
Arguments Ok {A} a.
Arguments Raise {A} e.

Definition rbind {A B} (m : result A) (f : A -> result B) : result B :=
  match m with
  | Ok a => f a
  | Raise e => Raise e
  end.

(** [d[k]] on a dict. *)
Definition getitem {V} (d : gmap string V) (k : string) : result V :=
  match d !! k with
  | Some v => Ok v
  | None => Raise (KeyError k)
  end.

(** [k in d]. *)
Definition has_key {V} (d : gmap string V) (k : string) : bool :=
  bool_decide (is_Some (d !! k)).

(** ** transform_pagerduty_results *)

Definition transform_entry (entry : pd_entry) : oncall :=
  {| name := pd_name (user entry);
     email := pd_email (user entry);
     level := escalation_level entry;
     start := pd_start entry;
     end_ := pd_end entry |}.

Definition transform_pagerduty_results (results : pd_response) : list oncall :=
  transform_entry <$> oncalls results.

(** ** Primary and secondary *)

(** [[user for user in possible_oncalls if user['level'] == lvl]] *)
Definition at_level (lvl : Z) (possible_oncalls : list oncall) : list oncall :=
  filter (fun u => level u = lvl) possible_oncalls.

(** [l.sort(key=lambda user: user['start'])]: list.sort is stable, so the
    result is the one rearrangement that is ascending in the key and keeps
    equal keys in their input order; insertion from the right computes it. *)
Fixpoint insert_by_start (u : oncall) (l : list oncall) : list oncall :=
  match l with
  | [] => [u]
  | v :: l' =>
      if String.ltb (start v) (start u)
      then v :: insert_by_start u l'
      else u :: v :: l'
  end.

Fixpoint sort_by_start (l : list oncall) : list oncall :=
  match l with
  | [] => []
  | u :: l' => insert_by_start u (sort_by_start l')
  end.

(** [if len(l) > 1: l.sort(...); l = [l[len(l) - 1]]] *)
Definition prioritize (l : list oncall) : list oncall :=
  if bool_decide (1 < length l)%nat
  then option_list (last (sort_by_start l))
  else l.

Definition reduce (lvl : Z) (possible_oncalls : list oncall) : list oncall :=
  prioritize (at_level lvl possible_oncalls).

(** ** get_slack_id *)

Section Errors.
#[global] Instance result_ret : MRet result := fun _ a => Ok a.
#[global] Instance result_bind : MBind result := fun _ _ f m => rbind m f.
End Errors.

(** ['real_name' in member['profile'] and
     person['name'] == member['profile']['real_name']] *)
Definition name_match (m : member) (person : oncall) : result bool :=
  if has_key (profile m) "real_name"
  then real_name ← getitem (profile m) "real_name";
       mret (String.eqb (name person) real_name)
  else mret false.

(** ['email' in member['profile'] and
     person['email'] == member['profile']['email']] *)
Definition email_match (m : member) (person : oncall) : result bool :=
  if has_key (profile m) "email"
  then member_email ← getitem (profile m) "email";
       mret (String.eqb (email person) member_email)
  else mret false.

(** The two assignments and the condition of the [if] in the loop body. *)
Definition is_match (m : member) (person : oncall) : result bool :=
  nm ← name_match m person;
  em ← email_match m person;
  mret (negb (deleted m) && negb (is_restricted m) && (nm || em)).

Fixpoint get_slack_id (members : list member) (person : oncall)
  : result (option string) :=
  match members with
  | [] => mret None
  | m :: members' =>
      hit ← is_match m person;
      if hit : bool then mret (Some (id m)) else get_slack_id members' person
  end.

(** ** The run: prints, requests, exits *)

Inductive printed :=
| Text (line : string)
| Oncalls (l : list oncall)
| SlackId (i : option string)
| Member (m : member)
| Body (body : string).

Inductive event :=
| Print (p : printed)
| Get (uri : string) (headers : list (string * string))
| Post (uri : string).

(** How a run ends: it returns, an exception reaches the top level, or it
    is still waiting for a directory page after the given ones. *)
Inductive outcome (A : Type) :=
| Returns (a : A)
| Raises (e : exn)
| Awaiting.
Arguments Returns {A} a.
Arguments Raises {A} e.
Arguments Awaiting {A}.

Definition io (A : Type) : Type := list event * outcome A.

Definition io_bind_def {A B} (m : io A) (f : A -> io B) : io B :=
  match m with
  | (t, Returns a) => let '(t', o) := f a in (t ++ t', o)
  | (t, Raises e) => (t, Raises e)
  | (t, Awaiting) => (t, Awaiting)
  end.

Section Effects.
#[global] Instance io_ret : MRet io := fun _ a => ([], Returns a).
#[global] Instance io_bind : MBind io := fun _ _ f m => io_bind_def m f.
End Effects.

Definition emit (e : event) : io unit := ([e], Returns tt).
Definition print (line : string) : io unit := emit (Print (Text line)).
Definition raise {A} (e : exn) : io A := ([], Raises e).
Definition sys_exit {A} (code : Z) : io A := raise (SystemExit code).
Definition lift {A} (r : result A) : io A :=
  match r with
  | Ok a => mret a
  | Raise e => raise e
  end.

(** [l[i]] on a list. *)
Definition index {A} (l : list A) (i : nat) : result A :=
  match l !! i with
  | Some x => Ok x
  | None => Raise IndexError
  end.

(** ['%s' % v] for a value that is a string or [None]. *)
Definition str (v : option string) : string :=
  match v with
  | Some s => s
  | None => "None"
  end.

(** Truth value of a string or [None]. *)
Definition truthy (v : option string) : bool :=
  match v with
  | Some s => negb (String.eqb s "")
  | None => false
  end.

(** The exit status of the process. *)
Definition exit_status {A} (o : outcome A) : option Z :=
  match o with
  | Returns _ => Some 0
  | Raises (SystemExit code) => Some code
  | Raises _ => Some 1
  | Awaiting => None
  end.

(** ** Module-level globals *)

Record globals := {
  PAGERDUTY_APIKEY : option string;
  PAGERDUTY_ONCALL_ESCALATION : option string;
  PAGERDUTY_API_ONCALL : string;
  PAGERDUTY_ONCALL_URI : string;
  SLACK_APIKEY : option string;
  SLACK_USERGROUP_ID : option string;
  SLACK_ORG_URL : string
}.

Definition getenv (environ : gmap string string) (k : string) : option string :=
  environ !! k.

Definition getenv_default (environ : gmap string string) (k d : string) : string :=
  default d (environ !! k).

(** [s + v]: concatenating [None] to a string is a TypeError. *)
Definition concat_str (s : string) (v : option string) : result string :=
  match v with
  | Some s' => Ok (s +:+ s')
  | None => Raise TypeError
  end.

Definition load_globals (environ : gmap string string) : result globals :=
  let apikey := getenv environ "PAGERDUTY_APIKEY" in
  let escalation := getenv environ "PAGERDUTY_ONCALL_ESCALATION" in
  let api_oncall :=
    getenv_default environ "PAGERDUTY_API_ONCALL"
      "https://api.pagerduty.com/oncalls?include[]=users&escalation_policy_ids[]=" in
  uri ← concat_str api_oncall escalation;
  mret {| PAGERDUTY_APIKEY := apikey;
          PAGERDUTY_ONCALL_ESCALATION := escalation;
          PAGERDUTY_API_ONCALL := api_oncall;
          PAGERDUTY_ONCALL_URI := uri;
          SLACK_APIKEY := getenv environ "SLACK_APIKEY";
          SLACK_USERGROUP_ID := getenv environ "SLACK_USERGROUP_ID";
          SLACK_ORG_URL :=
            getenv_default environ "SLACK_ORG_URL" "https://mesosphere.slack.com" |}.

Definition SLACK_USERS_URI (token cursor : string) : string :=
  "https://mesosphere.slack.com/api/users.list?token=" +:+ token +:+
  "&cursor=" +:+ cursor.

Definition SLACK_USERGROUP_URI (org token usergroup users : string) : string :=
  org +:+ "/api/usergroups.users.update?token=" +:+ token +:+
  "&usergroup=" +:+ usergroup +:+ "&users=" +:+ users.

(** ** The Slack directory loop *)

(** The three variables of the [while] loop. *)
Record loop_state := {
  got_all_users : bool;
  users : list member;
  next_cursor : string
}.

Definition loop_init : loop_state :=
  {| got_all_users := false; users := []; next_cursor := "" |}.

(** [md != ""] *)
Definition not_empty_str (md : metadata) : bool :=
  match md with
  | MetaStr s => negb (String.eqb s "")
  | MetaDict _ => true
  end.

(** [md[k]]: a string cannot be indexed by a string. *)
Definition meta_getitem (md : metadata) (k : string) : result string :=
  match md with
  | MetaStr _ => Raise TypeError
  | MetaDict d => getitem d k
  end.

(** The body of the loop once the response [r] is decoded. *)
Definition loop_body (r : page) (st : loop_state) : result loop_state :=
  let users' :=
    match members r with
    | Some ms => users st ++ ms
    | None => users st
    end in
  match response_metadata r with
  | Some md =>
      if not_empty_str md
      then cursor ← meta_getitem md "next_cursor";
           mret {| got_all_users := got_all_users st;
                   users := users';
                   next_cursor := cursor |}
      else mret {| got_all_users := true;
                   users := users';
                   next_cursor := next_cursor st |}
  | None =>
      mret {| got_all_users := true;
              users := users';
              next_cursor := next_cursor st |}
  end.

(** [while got_all_users is False: ...], answered by [pages] in order. *)
Fixpoint users_loop (token : string) (pages : list page) (st : loop_state)
  : io loop_state :=
  if got_all_users st then mret st
  else
    match pages with
    | [] => ([], Awaiting)
    | r :: pages' =>
        emit (Get (SLACK_USERS_URI token (next_cursor st)) []) ;;
        st' ← lift (loop_body r st);
        users_loop token pages' st'
    end.

(** ** __main__ *)

Definition missing_message : string :=
  "Missing environment variable: 'PAGERDUTY_APIKEY', 'SLACK_APIKEY', or 'SLACK_USERGROUP_ID'".

Definition overflow_message : string :=
  "Number of PagerDuty oncalls exceed 25; This schedule may be configured improperly".

Definition pagerduty_headers (g : globals) : list (string * string) :=
  [("Authorization", "Token token=" +:+ str (PAGERDUTY_APIKEY g));
   ("Accept", "application/vnd.pagerduty+json;version=2")].

(** The [users] argument of the update request. *)
Definition users_param (primary secondary : option string) : string :=
  str primary +:+ "," +:+ str secondary.

(** Lines 106 to 143: directory fetch, resolution, update. *)
Definition resolve_and_update (g : globals) (primary secondary : list oncall)
    (pages : list page) (ack : string) : io unit :=
  st ← users_loop (str (SLACK_APIKEY g)) pages loop_init;
  let users := users st in
  person ← lift (index primary 0);
  primary ← lift (get_slack_id users person);
  first_user ← lift (index users 0);
  emit (Print (Member first_user)) ;;
  secondary ←
    (if bool_decide (0 < length secondary)%nat
     then person ← lift (index secondary 0); lift (get_slack_id users person)
     else mret None);
  print "Primary:" ;;
  emit (Print (SlackId primary)) ;;
  print "Secondary:" ;;
  emit (Print (SlackId secondary)) ;;
  (if negb (truthy primary) || negb (truthy secondary)
   then print "Uh oh, couldn't find both on-calls in Slack"
   else mret tt) ;;
  let slackrequesturi :=
    SLACK_USERGROUP_URI (SLACK_ORG_URL g) (str (SLACK_APIKEY g))
      (str (SLACK_USERGROUP_ID g)) (users_param primary secondary) in
  print slackrequesturi ;;
  emit (Post slackrequesturi) ;;
  emit (Print (Body ack)).

Definition main (g : globals) (pd : pd_response) (pages : list page)
    (ack : string) : io unit :=
  if negb (truthy (PAGERDUTY_APIKEY g))
     || negb (truthy (PAGERDUTY_ONCALL_ESCALATION g))
     || negb (truthy (SLACK_APIKEY g))
     || negb (truthy (SLACK_USERGROUP_ID g))
  then print missing_message ;; sys_exit 1
  else
    print (PAGERDUTY_ONCALL_URI g) ;;
    emit (Get (PAGERDUTY_ONCALL_URI g) (pagerduty_headers g)) ;;
    let r := pd in
    let possible_oncalls := transform_pagerduty_results r in
    if more r
    then print overflow_message ;; sys_exit 1
    else
      print ("Found the following on-call for Escalation Policy: '"
             +:+ str (PAGERDUTY_ONCALL_ESCALATION g) +:+ "'") ;;
      emit (Print (Oncalls possible_oncalls)) ;;
      let primary := at_level 1 possible_oncalls in
      let secondary := at_level 2 possible_oncalls in
      let primary := prioritize primary in
      let secondary := prioritize secondary in
      print "Primary:" ;;
      emit (Print (Oncalls primary)) ;;
      print "Secondary:" ;;
      emit (Print (Oncalls secondary)) ;;
      resolve_and_update g primary secondary pages ack.

(** The script from its first line: the globals, then [__main__]. *)
Definition script (environ : gmap string string) (pd : pd_response)
    (pages : list page) (ack : string) : io unit :=
  match load_globals environ with
  | Ok g => main g pd pages ack
  | Raise e => raise e
  end.

(** ** Reading a run *)

Definition is_request (e : event) : bool :=
  match e with
  | Print _ => false
  | Get _ _ | Post _ => true
  end.

(** The requests of a trace, in order. *)
Definition requests (t : list event) : list event :=
  List.filter is_request t.

(** The text lines printed, in order. *)
Definition lines (t : list event) : list string :=
  omap (fun e => match e with Print (Text s) => Some s | _ => None end) t.

(** [sub in s] for strings. *)
Fixpoint contains (sub s : string) : bool :=
  String.prefix sub s ||
  match s with
  | EmptyString => false
  | String _ s' => contains sub s'
  end.

(** The identifiers a comma-joined [users] argument lists. *)
Fixpoint split_commas (s : string) : list string :=
  match s with
  | EmptyString => [EmptyString]
  | String c s' =>
      match split_commas s' with
      | [] => [String c EmptyString]
      | w :: ws =>
          if Ascii.eqb c "," then EmptyString :: w :: ws
          else String c w :: ws
      end
  end.

(** ** Reference definitions for the statements *)

(** The record a level is reduced to, read off the input directly: the
    greatest [start], and of several records with that [start] the one
    latest in the list. *)
Fixpoint latest (l : list oncall) : option oncall :=
  match l with
  | [] => None
  | u :: l' =>
      match latest l' with
      | None => Some u
      | Some m => Some (if String.ltb (start m) (start u) then u else m)
      end
  end.

Definition le_start (a b : oncall) : Prop :=
  String.leb (start a) (start b) = true.

Definition lt_start (a b : oncall) : Prop :=
  String.ltb (start a) (start b) = true.

(** The matching rule in words: the member is neither deleted nor restricted
    and its real name or its email is the person's. *)
Definition eligible (person : oncall) (m : member) : Prop :=
  deleted m = false /\ is_restricted m = false /\
  (profile m !! "real_name" = Some (name person)
   \/ profile m !! "email" = Some (email person)).

#[global] Instance eligible_dec person m : Decision (eligible person m).
Proof. unfold eligible. apply _. Defined.

(** What a page adds to the directory. *)
Definition page_members (r : page) : list member :=
  default [] (members r).

(** The page keeps the loop going, with [c] as the next cursor. *)
Definition goes_on (r : page) (c : string) : Prop :=
  exists md, response_metadata r = Some md
    /\ not_empty_str md = true
    /\ meta_getitem md "next_cursor" = Ok c.

(** The page ends the loop: no [response_metadata], or an empty string. *)
Definition ends (r : page) : Prop :=
  response_metadata r = None \/ response_metadata r = Some (MetaStr "").

(** The page Slack sends when nothing follows: a [next_cursor] that is the
    empty string. *)
Definition empty_cursor_page (ms : list member) : page :=
  {| members := Some ms;
     response_metadata := Some (MetaDict {[ "next_cursor" := "" ]}) |}.

Definition users_request (token cursor : string) : event :=
  Get (SLACK_USERS_URI token cursor) [].

(** The four mandatory values are set and not empty. *)
Definition configured (g : globals) : Prop :=
  truthy (PAGERDUTY_APIKEY g) = true
  /\ truthy (PAGERDUTY_ONCALL_ESCALATION g) = true
  /\ truthy (SLACK_APIKEY g) = true
  /\ truthy (SLACK_USERGROUP_ID g) = true.

(** The line printed last before the process exits through [sys.exit]. *)
Definition exit_diagnostic {A} (run : io A) : option string :=
  match run.2 with
  | Raises (SystemExit _) => last (lines run.1)
  | _ => None
  end.

(** The URI of the update request for the two resolved values. *)
Definition update_uri (g : globals) (primary secondary : option string) : string :=
  SLACK_USERGROUP_URI (SLACK_ORG_URL g) (str (SLACK_APIKEY g))
    (str (SLACK_USERGROUP_ID g)) (users_param primary secondary).

(** What is printed and requested before the directory is fetched, when the
    configuration is complete and PagerDuty reports no further page. *)
Definition preamble (g : globals) (pd : pd_response) : list event :=
  let possible_oncalls := transform_pagerduty_results pd in
  [Print (Text (PAGERDUTY_ONCALL_URI g));
   Get (PAGERDUTY_ONCALL_URI g) (pagerduty_headers g);
   Print (Text ("Found the following on-call for Escalation Policy: '"
                +:+ str (PAGERDUTY_ONCALL_ESCALATION g) +:+ "'"));
   Print (Oncalls possible_oncalls);
   Print (Text "Primary:");
   Print (Oncalls (reduce 1 possible_oncalls));
   Print (Text "Secondary:");
   Print (Oncalls (reduce 2 possible_oncalls))].

(** The update requests of a trace. *)
Definition is_post (e : event) : bool :=
  match e with
  | Post _ => true
  | _ => false
  end.

Definition posts (t : list event) : list event :=
  List.filter is_post t.

(** A member that is neither deleted nor restricted. *)
Definition active (m : member) : Prop :=
  deleted m = false /\ is_restricted m = false.

#[global] Instance active_dec m : Decision (active m).
Proof. unfold active. apply _. Defined.

Definition warning : string :=
  "Uh oh, couldn't find both on-calls in Slack".

(** A page whose [response_metadata] cannot be read for a cursor: a string
    that is not empty, or a dict without [next_cursor]. *)
Definition malformed (r : page) (e : exn) : Prop :=
  (exists s', response_metadata r = Some (MetaStr s')
     /\ s' <> "" /\ e = TypeError)
  \/ (exists d, response_metadata r = Some (MetaDict d)
        /\ d !! "next_cursor" = None /\ e = KeyError "next_cursor").

(** ** Sample inputs *)

Module Sample.

Definition rotation (n e : string) (lvl : Z) (s : string) : oncall :=
  {| name := n; email := e; level := lvl; start := s;
     end_ := "2024-03-01T09:00:00Z" |}.

Definition ann : oncall := rotation "Ann" "ann@example.com" 1 "2024-01-01T09:00:00Z".
Definition bob : oncall := rotation "Bob" "bob@example.com" 1 "2024-02-01T09:00:00Z".
Definition cat : oncall := rotation "Cat" "cat@example.com" 2 "2024-01-15T09:00:00Z".
(** Starts at the same instant as [ann]. *)
Definition dan : oncall := rotation "Dan" "dan@example.com" 1 "2024-01-01T09:00:00Z".

Definition entry_of (u : oncall) : pd_entry :=
  {| user := {| pd_name := name u; pd_email := email u |};
     escalation_level := level u;
     pd_start := start u;
     pd_end := end_ u |}.

Definition slack_member (i n e : string) : member :=
  {| id := i; deleted := false; is_restricted := false;
     profile := {[ "real_name" := n; "email" := e ]} |}.

Definition m_ann : member := slack_member "U0ANN" "Ann" "ann@example.com".
(** Same name as [bob], another email. *)
Definition m_bob : member := slack_member "U0BOB" "Bob" "robert@example.org".
(** Same email as [cat], another name. *)
Definition m_cat : member := slack_member "U0CAT" "Catherine" "cat@example.com".
(** A deactivated account with [bob]'s name and email. *)
Definition m_old_bob : member :=
  {| id := "U0OLD"; deleted := true; is_restricted := false;
     profile := {[ "real_name" := "Bob"; "email" := "bob@example.com" ]} |}.
(** A guest with [bob]'s name and email. *)
Definition m_guest_bob : member :=
  {| id := "U0GST"; deleted := false; is_restricted := true;
     profile := {[ "real_name" := "Bob"; "email" := "bob@example.com" ]} |}.
(** A bot: its profile has neither key. *)
Definition m_bot : member :=
  {| id := "U0BOT"; deleted := false; is_restricted := false; profile := ∅ |}.
(** Lower-case spelling of [bob]'s name and upper-case of the email. *)
Definition m_bob_case : member := slack_member "U0LOW" "bob" "BOB@EXAMPLE.COM".

Definition page_with_cursor (ms : option (list member)) (c : string) : page :=
  {| members := ms;
     response_metadata := Some (MetaDict {[ "next_cursor" := c ]}) |}.

Definition last_page (ms : option (list member)) : page :=
  {| members := ms; response_metadata := None |}.

(** Three pages; the second has no [members] key. *)
Definition three_pages : list page :=
  [page_with_cursor (Some [m_old_bob; m_ann]) "dXNlcjpVMEFOTg==";
   page_with_cursor None "dXNlcjpVMEJPQg==";
   last_page (Some [m_bob; m_cat])].

Definition environ : gmap string string :=
  {[ "PAGERDUTY_APIKEY" := "pd-key-0000";
     "PAGERDUTY_ONCALL_ESCALATION" := "PT20YPA";
     "SLACK_APIKEY" := "xoxp-0000";
     "SLACK_USERGROUP_ID" := "S0615G0KT" ]}.

Definition response (l : list oncall) (m : bool) : pd_response :=
  {| oncalls := entry_of <$> l; more := m |}.

(** The globals the script computes from [environ]. *)
Definition config : globals :=
  {| PAGERDUTY_APIKEY := Some "pd-key-0000";
     PAGERDUTY_ONCALL_ESCALATION := Some "PT20YPA";
     PAGERDUTY_API_ONCALL :=
       "https://api.pagerduty.com/oncalls?include[]=users&escalation_policy_ids[]=";
     PAGERDUTY_ONCALL_URI :=
       "https://api.pagerduty.com/oncalls?include[]=users&escalation_policy_ids[]=PT20YPA";
     SLACK_APIKEY := Some "xoxp-0000";
     SLACK_USERGROUP_ID := Some "S0615G0KT";
     SLACK_ORG_URL := "https://mesosphere.slack.com" |}.

(** The state the loop ends in on [three_pages]. *)
Definition directory : loop_state :=
  {| got_all_users := true;
     users := [m_old_bob; m_ann; m_bob; m_cat];
     next_cursor := "dXNlcjpVMEJPQg==" |}.

End Sample.

(** * Properties *)

(** ** The order on [start] strings *)

Module StrOrder.

Lemma compare_OT (a b : string) : String.compare a b = String_as_OT.compare a b.
Proof.
  revert b. induction a as [|c a IH]; intros [|d b]; reflexivity.
Qed.

Lemma leb_spec (a b : string) :
  String.leb a b = true <-> a = b \/ String_as_OT.lt a b.
Proof.
  unfold String.leb, String_as_OT.lt. rewrite compare_OT.
  destruct (String_as_OT.compare_spec a b) as [H|H|H]; split; intros Hx; auto;
    try discriminate.
  destruct Hx as [->|Hx]; [|discriminate].
  exfalso. eapply (irreflexivity String_as_OT.lt); eassumption.
Qed.

Lemma ltb_spec (a b : string) :
  String.ltb a b = true <-> String_as_OT.lt a b.
Proof.
  unfold String.ltb, String_as_OT.lt. rewrite compare_OT.
  destruct (String_as_OT.compare a b); split; intros; try discriminate; auto.
Qed.

Lemma leb_refl (a : string) : String.leb a a = true.
Proof. apply leb_spec. now left. Qed.

Lemma leb_trans (a b c : string) :
  String.leb a b = true -> String.leb b c = true -> String.leb a c = true.
Proof.
  rewrite !leb_spec. intros [->|Hab] [->|Hbc]; auto.
  right. etransitivity; eassumption.
Qed.

Lemma ltb_false_leb (a b : string) :
  String.ltb a b = false -> String.leb b a = true.
Proof.
  intros H. destruct (String.leb_total a b) as [Hab|Hba]; [|assumption].
  apply leb_spec in Hab. destruct Hab as [->|Hlt]; [apply leb_refl|].
  apply ltb_spec in Hlt. congruence.
Qed.

Lemma ltb_true_leb (a b : string) :
  String.ltb a b = true -> String.leb a b = true.
Proof. rewrite ltb_spec, leb_spec. auto. Qed.

Lemma ltb_leb_false (a b : string) :
  String.ltb a b = true -> String.leb b a = false.
Proof.
  intros H. destruct (String.leb b a) eqn:E; [|reflexivity].
  apply ltb_spec in H. apply leb_spec in E. destruct E as [->|E].
  - exfalso. eapply (irreflexivity String_as_OT.lt); eassumption.
  - exfalso. eapply (irreflexivity String_as_OT.lt). etransitivity; eassumption.
Qed.

End StrOrder.

(** ** The tie-break *)

Section TieBreak.

Lemma leb_ltb_trans (a b c : string) :
  String.leb a b = true -> String.ltb b c = true -> String.ltb a c = true.
Proof.
  rewrite StrOrder.leb_spec, !StrOrder.ltb_spec.
  intros [->|Hab] Hbc; [assumption|]. etransitivity; eassumption.
Qed.

Lemma insert_by_start_perm (u : oncall) (l : list oncall) :
  insert_by_start u l ≡ₚ u :: l.
Proof.
  induction l as [|v l IH]; simpl; [reflexivity|].
  destruct (String.ltb (start v) (start u)); [|reflexivity].
  rewrite IH. apply Permutation_swap.
Qed.

Lemma sort_by_start_perm (l : list oncall) : sort_by_start l ≡ₚ l.
Proof.
  induction l as [|u l IH]; simpl; [reflexivity|].
  rewrite insert_by_start_perm. now rewrite IH.
Qed.

(** Inserting into a list whose last element is a greatest one. *)
Lemma last_insert_by_start (u m : oncall) (s : list oncall) :
  last s = Some m ->
  Forall (fun y => le_start y m) s ->
  last (insert_by_start u s)
  = Some (if String.ltb (start m) (start u) then u else m).
Proof.
  induction s as [|v s IH]; [discriminate|].
  intros Hlast Hmax. apply Forall_cons in Hmax as [Hv Hmax]. simpl.
  destruct (String.ltb (start v) (start u)) eqn:Hvu.
  - destruct s as [|w s].
    + simpl in *. injection Hlast as <-. now rewrite Hvu.
    + change (last (v :: w :: s)) with (last (w :: s)) in Hlast.
      rewrite last_cons. now rewrite (IH Hlast Hmax).
  - change (last (u :: v :: s)) with (last (v :: s)). rewrite Hlast.
    assert (String.ltb (start m) (start u) = false) as ->; [|reflexivity].
    destruct (String.ltb (start m) (start u)) eqn:Hmu; [|reflexivity].
    apply StrOrder.ltb_false_leb in Hvu.
    apply StrOrder.ltb_leb_false in Hmu.
    rewrite (StrOrder.leb_trans _ _ _ Hvu Hv) in Hmu. discriminate.
Qed.

Lemma latest_nil_iff (l : list oncall) : latest l = None <-> l = [].
Proof.
  destruct l as [|u l]; simpl; [tauto|].
  destruct (latest l); split; intros; discriminate.
Qed.

(** [latest] picks a greatest record; everything after it is strictly
    earlier. *)
Lemma latest_split (l : list oncall) (m : oncall) :
  latest l = Some m ->
  exists l1 l2, l = l1 ++ m :: l2
    /\ Forall (fun y => le_start y m) l1
    /\ Forall (fun y => lt_start y m) l2.
Proof.
  revert m. induction l as [|u l IH]; intros m; simpl; [discriminate|].
  destruct (latest l) as [m'|] eqn:Hl.
  - destruct (IH m' eq_refl) as (l1 & l2 & -> & H1 & H2).
    destruct (String.ltb (start m') (start u)) eqn:Hmu; intros [= <-].
    + exists [], (l1 ++ m' :: l2). split; [reflexivity|]. split; [constructor|].
      apply Forall_app. split; [|constructor; [exact Hmu|]].
      * eapply Forall_impl; [exact H1|]. intros y Hy.
        exact (leb_ltb_trans _ _ _ Hy Hmu).
      * eapply Forall_impl; [exact H2|]. intros y Hy.
        exact (leb_ltb_trans _ _ _ (StrOrder.ltb_true_leb _ _ Hy) Hmu).
    + exists (u :: l1), l2. split; [reflexivity|]. split; [|assumption].
      constructor; [|assumption]. now apply StrOrder.ltb_false_leb.
  - apply latest_nil_iff in Hl as ->. intros [= <-].
    exists [], []. repeat split; constructor.
Qed.

Lemma latest_max (l : list oncall) (m : oncall) :
  latest l = Some m -> m ∈ l /\ Forall (fun y => le_start y m) l.
Proof.
  intros (l1 & l2 & -> & H1 & H2)%latest_split. split.
  - apply elem_of_app. right. left.
  - apply Forall_app. split; [assumption|]. constructor.
    + apply StrOrder.leb_refl.
    + eapply Forall_impl; [exact H2|]. intros y. apply StrOrder.ltb_true_leb.
Qed.

(** The last element of the sorted list is [latest] of the input. *)
Lemma last_sort_by_start (l : list oncall) :
  last (sort_by_start l) = latest l.
Proof.
  induction l as [|u l IH]; simpl; [reflexivity|].
  destruct (latest l) as [m|] eqn:Hl.
  - apply last_insert_by_start; [assumption|].
    apply latest_max in Hl as [_ Hmax].
    now rewrite sort_by_start_perm.
  - apply latest_nil_iff in Hl as ->. reflexivity.
Qed.

Lemma prioritize_latest (l : list oncall) :
  (1 < length l)%nat -> exists r, latest l = Some r /\ prioritize l = [r].
Proof.
  intros Hlen. unfold prioritize. rewrite bool_decide_eq_true_2 by assumption.
  rewrite last_sort_by_start.
  destruct (latest l) as [r|] eqn:Hl; [eauto|].
  apply latest_nil_iff in Hl as ->. simpl in Hlen. lia.
Qed.

Lemma prioritize_short (l : list oncall) :
  (length l <= 1)%nat -> prioritize l = l.
Proof.
  intros Hlen. unfold prioritize. rewrite bool_decide_eq_false_2; [reflexivity|lia].
Qed.

Lemma NoDup_fmap_eq {A B} (f : A -> B) (l : list A) (x y : A) :
  NoDup (f <$> l) -> x ∈ l -> y ∈ l -> f x = f y -> x = y.
Proof.
  induction l as [|a l IH]; simpl; intros Hnd Hx Hy Hf; [inversion Hx|].
  apply NoDup_cons in Hnd as [Ha Hnd].
  apply elem_of_cons in Hx as [->|Hx], Hy as [->|Hy]; auto.
  - exfalso. apply Ha. rewrite Hf. now apply list_elem_of_fmap_2.
  - exfalso. apply Ha. rewrite <- Hf. now apply list_elem_of_fmap_2.
Qed.

(** With pairwise distinct [start]s the order of the input is irrelevant. *)
Lemma latest_perm (l l' : list oncall) :
  l ≡ₚ l' -> NoDup (start <$> l) -> latest l = latest l'.
Proof.
  intros Hp Hnd.
  destruct (latest l) as [m|] eqn:Hl, (latest l') as [m'|] eqn:Hl'.
  - f_equal.
    apply latest_max in Hl as [Hin Hmax], Hl' as [Hin' Hmax'].
    rewrite Forall_forall in Hmax, Hmax'.
    apply (NoDup_fmap_eq start l); auto.
    + now rewrite Hp.
    + apply String.leb_antisym.
      * apply Hmax'. now rewrite <- Hp.
      * apply Hmax. now rewrite Hp.
  - apply latest_nil_iff in Hl'. subst l'. apply Permutation_length in Hp.
    destruct l; [discriminate Hl|discriminate Hp].
  - apply latest_nil_iff in Hl. subst l. apply Permutation_length in Hp.
    destruct l'; [discriminate Hl'|discriminate Hp].
  - reflexivity.
Qed.

End TieBreak.

(** ** The reducer *)

(** C1, as stated, fails on ties: two level-1 records that start at the same
    instant are reduced to whichever comes later in the input, so swapping
    them changes the result. *)
Lemma reduce_ties_follow_input_order :
  [Sample.ann; Sample.dan] ≡ₚ [Sample.dan; Sample.ann]
  /\ (1 < length (at_level 1 [Sample.ann; Sample.dan]))%nat
  /\ start Sample.ann = start Sample.dan
  /\ reduce 1 [Sample.ann; Sample.dan] = [Sample.dan]
  /\ reduce 1 [Sample.dan; Sample.ann] = [Sample.ann]
  /\ reduce 1 [Sample.ann; Sample.dan] <> reduce 1 [Sample.dan; Sample.ann].
Proof.
  split; [apply Permutation_swap|].
  split; [vm_compute; lia|].
  repeat split; try reflexivity. vm_compute. discriminate.
Qed.

(** C1 (amended): when more than one record has the level, the reducer
    returns a single record of that level whose [start] is lexically greatest
    among them, the latest in the input of those with that [start]; the
    result is the same for every permutation of the input provided the
    records of the level have pairwise distinct [start]s. *)
Theorem reduce_returns_latest (lvl : Z) (l : list oncall) :
  (1 < length (at_level lvl l))%nat ->
  exists r,
    reduce lvl l = [r]
    /\ r ∈ l /\ level r = lvl
    /\ (forall y, y ∈ l -> level y = lvl -> String.leb (start y) (start r) = true)
    /\ (exists l1 l2, at_level lvl l = l1 ++ r :: l2
                      /\ Forall (fun y => lt_start y r) l2)
    /\ (forall l', l ≡ₚ l' -> NoDup (start <$> at_level lvl l) ->
                   reduce lvl l' = [r]).
Proof.
  intros Hlen. unfold reduce.
  destruct (prioritize_latest _ Hlen) as (r & Hr & ->).
  exists r. split; [reflexivity|].
  destruct (latest_max _ _ Hr) as [Hin Hmax].
  apply list_elem_of_filter in Hin as [Hlvl Hin].
  split; [assumption|]. split; [assumption|]. split; [|split].
  - intros y Hy Hylvl. rewrite Forall_forall in Hmax. apply Hmax.
    apply list_elem_of_filter. auto.
  - destruct (latest_split _ _ Hr) as (l1 & l2 & E & _ & H2). eauto.
  - intros l' Hp Hnd.
    assert (at_level lvl l ≡ₚ at_level lvl l') as Hp'.
    { unfold at_level. now rewrite Hp. }
    assert (1 < length (at_level lvl l'))%nat as Hlen'.
    { now rewrite <- (Permutation_length Hp'). }
    destruct (prioritize_latest _ Hlen') as (r' & Hr' & ->).
    rewrite <- (latest_perm _ _ Hp' Hnd), Hr in Hr'. congruence.
Qed.

Lemma reduce_returns_latest_witness :
  exists r,
    reduce 1 [Sample.ann; Sample.bob; Sample.cat] = [r]
    /\ r ∈ [Sample.ann; Sample.bob; Sample.cat] /\ level r = 1
    /\ (forall y, y ∈ [Sample.ann; Sample.bob; Sample.cat] -> level y = 1 ->
                  String.leb (start y) (start r) = true)
    /\ (exists l1 l2, at_level 1 [Sample.ann; Sample.bob; Sample.cat] = l1 ++ r :: l2
                      /\ Forall (fun y => lt_start y r) l2)
    /\ (forall l', [Sample.ann; Sample.bob; Sample.cat] ≡ₚ l' ->
                   NoDup (start <$> at_level 1 [Sample.ann; Sample.bob; Sample.cat]) ->
                   reduce 1 l' = [r]).
Proof.
  apply (reduce_returns_latest 1 [Sample.ann; Sample.bob; Sample.cat]).
  vm_compute. lia.
Defined.

Example reduce_sample :
  reduce 1 [Sample.ann; Sample.bob; Sample.cat] = [Sample.bob]
  /\ reduce 2 [Sample.ann; Sample.bob; Sample.cat] = [Sample.cat]
  /\ reduce 2 [Sample.ann; Sample.bob] = [].
Proof. repeat split. Qed.

(** ** The resolver *)

Section Resolver.

Lemma has_key_lookup {V} (d : gmap string V) (k : string) :
  has_key d k = match d !! k with Some _ => true | None => false end.
Proof.
  unfold has_key. destruct (d !! k) eqn:E.
  - apply bool_decide_eq_true_2. eauto.
  - apply bool_decide_eq_false_2. intros [v Hv]. discriminate.
Qed.

Lemma eqb_decide (a b : string) :
  String.eqb a b = bool_decide (Some b = Some a).
Proof.
  destruct (String.eqb_spec a b) as [->|Hne].
  - symmetry. now apply bool_decide_eq_true_2.
  - symmetry. apply bool_decide_eq_false_2. congruence.
Qed.

Lemma name_match_eq (m : member) (person : oncall) :
  name_match m person
  = Ok (bool_decide (profile m !! "real_name" = Some (name person))).
Proof.
  unfold name_match, getitem. rewrite has_key_lookup.
  destruct (profile m !! "real_name") as [v|]; simpl.
  - now rewrite eqb_decide.
  - reflexivity.
Qed.

Lemma email_match_eq (m : member) (person : oncall) :
  email_match m person
  = Ok (bool_decide (profile m !! "email" = Some (email person))).
Proof.
  unfold email_match, getitem. rewrite has_key_lookup.
  destruct (profile m !! "email") as [v|]; simpl.
  - now rewrite eqb_decide.
  - reflexivity.
Qed.

Lemma is_match_eq (m : member) (person : oncall) :
  is_match m person = Ok (bool_decide (eligible person m)).
Proof.
  unfold is_match. rewrite name_match_eq, email_match_eq. simpl. f_equal.
  match goal with |- ?b = _ => destruct b eqn:E end; symmetry.
  - apply bool_decide_eq_true_2. unfold eligible.
    rewrite !andb_true_iff, orb_true_iff, !negb_true_iff,
      !bool_decide_eq_true in E. tauto.
  - apply bool_decide_eq_false_2. unfold eligible. intros H.
    apply not_true_iff_false in E. apply E.
    rewrite !andb_true_iff, orb_true_iff, !negb_true_iff,
      !bool_decide_eq_true. tauto.
Qed.

Lemma get_slack_id_cons (m : member) (members : list member) (person : oncall) :
  get_slack_id (m :: members) person
  = if bool_decide (eligible person m) then Ok (Some (id m))
    else get_slack_id members person.
Proof. simpl. now rewrite is_match_eq. Qed.

Lemma get_slack_id_total (members : list member) (person : oncall) :
  exists r, get_slack_id members person = Ok r.
Proof.
  induction members as [|m members IH]; [now exists None|].
  rewrite get_slack_id_cons. case_bool_decide; eauto.
Qed.

Lemma get_slack_id_skip (before after : list member) (m : member)
    (person : oncall) :
  ~ eligible person m ->
  get_slack_id (before ++ m :: after) person
  = get_slack_id (before ++ after) person.
Proof.
  intros Hm. induction before as [|x before IH].
  - simpl app. rewrite get_slack_id_cons. now rewrite bool_decide_eq_false_2.
  - rewrite <- !app_comm_cons, !get_slack_id_cons. now rewrite IH.
Qed.

End Resolver.

(** C5: a member matches a person exactly when it is neither deleted nor
    restricted and its [real_name] is the person's name or its [email] is the
    person's email (string equality, so case matters); the test always
    yields a truth value. *)
Theorem is_match_iff (m : member) (person : oncall) :
  (is_match m person = Ok true <->
     deleted m = false /\ is_restricted m = false /\
     (profile m !! "real_name" = Some (name person)
      \/ profile m !! "email" = Some (email person)))
  /\ (is_match m person = Ok true \/ is_match m person = Ok false).
Proof.
  rewrite is_match_eq. split.
  - split.
    + intros [= H]. now apply bool_decide_eq_true in H.
    + intros H. f_equal. now apply bool_decide_eq_true_2.
  - destruct (bool_decide (eligible person m)); auto.
Qed.

(** A name match with another email, an email match with another name; a
    deleted or a restricted member with both equal; another letter case. *)
Example is_match_samples :
  is_match Sample.m_bob Sample.bob = Ok true
  /\ is_match Sample.m_cat Sample.cat = Ok true
  /\ is_match Sample.m_old_bob Sample.bob = Ok false
  /\ is_match Sample.m_guest_bob Sample.bob = Ok false
  /\ is_match Sample.m_bob_case Sample.bob = Ok false
  /\ is_match Sample.m_bot Sample.bob = Ok false.
Proof. repeat split; vm_compute; reflexivity. Qed.

(** C7: [get_slack_id] returns the [id] of the first member of the list that
    matches, and [None], which no identifier equals, exactly when no member
    matches. *)
Theorem get_slack_id_first_eligible (members : list member) (person : oncall) :
  (forall i, get_slack_id members person = Ok (Some i) <->
     exists l1 m l2, members = l1 ++ m :: l2
       /\ Forall (fun x => ~ eligible person x) l1
       /\ eligible person m /\ id m = i)
  /\ (get_slack_id members person = Ok None <->
        Forall (fun x => ~ eligible person x) members)
  /\ (exists r, get_slack_id members person = Ok r).
Proof.
  split; [|split; [|apply get_slack_id_total]].
  - induction members as [|x members IH]; intros i.
    + split; [discriminate|]. intros (l1 & m & l2 & E & _).
      now destruct l1.
    + rewrite get_slack_id_cons. case_bool_decide as Hx.
      * split.
        -- intros [= <-]. exists [], x, members.
           split; [reflexivity|]. split; [constructor|]. split; auto.
        -- intros (l1 & m & l2 & E & Hl1 & Hm & <-).
           destruct l1 as [|y l1]; simpl in E; injection E as -> ->; [reflexivity|].
           apply Forall_cons in Hl1 as [Hy _]. contradiction.
      * rewrite IH. split.
        -- intros (l1 & m & l2 & -> & Hl1 & Hm & <-).
           exists (x :: l1), m, l2.
           split; [reflexivity|]. split; [now constructor|]. split; auto.
        -- intros (l1 & m & l2 & E & Hl1 & Hm & <-).
           destruct l1 as [|y l1]; simpl in E; injection E as -> ->; [contradiction|].
           apply Forall_cons in Hl1 as [_ Hl1]. exists l1, m, l2. auto.
  - induction members as [|x members IH].
    + split; [constructor|reflexivity].
    + rewrite get_slack_id_cons. case_bool_decide as Hx.
      * split; [discriminate|]. intros [Hx' _]%Forall_cons. contradiction.
      * rewrite IH. split; [now constructor|]. now intros [_ H]%Forall_cons.
Qed.

Example get_slack_id_samples :
  get_slack_id [Sample.m_old_bob; Sample.m_bot; Sample.m_bob; Sample.m_guest_bob]
    Sample.bob = Ok (Some "U0BOB")
  /\ get_slack_id [Sample.m_old_bob; Sample.m_bot; Sample.m_ann] Sample.bob
     = Ok None.
Proof. split; vm_compute; reflexivity. Qed.

(** C10: whatever keys a member's profile lacks, matching raises nothing;
    a missing [real_name] makes the name test false and a missing [email] the
    email test; a member that lacks both is passed over, and the result is
    the one the list without it gives. *)
Theorem get_slack_id_missing_fields (person : oncall) (m : member)
    (before after : list member) :
  (exists b, is_match m person = Ok b)
  /\ (exists r, get_slack_id (before ++ m :: after) person = Ok r)
  /\ (profile m !! "real_name" = None -> name_match m person = Ok false)
  /\ (profile m !! "email" = None -> email_match m person = Ok false)
  /\ (profile m !! "real_name" = None -> profile m !! "email" = None ->
      is_match m person = Ok false
      /\ get_slack_id (before ++ m :: after) person
         = get_slack_id (before ++ after) person).
Proof.
  split; [rewrite is_match_eq; eauto|].
  split; [apply get_slack_id_total|].
  split; [|split].
  - intros H. rewrite name_match_eq, H. reflexivity.
  - intros H. rewrite email_match_eq, H. reflexivity.
  - intros Hn He.
    assert (~ eligible person m) as Hm.
    { intros (_ & _ & [H|H]); congruence. }
    split.
    + rewrite is_match_eq. f_equal. now apply bool_decide_eq_false_2.
    + now apply get_slack_id_skip.
Qed.

Lemma get_slack_id_missing_fields_witness :
  name_match Sample.m_bot Sample.bob = Ok false
  /\ email_match Sample.m_bot Sample.bob = Ok false
  /\ is_match Sample.m_bot Sample.bob = Ok false
  /\ get_slack_id ([Sample.m_ann] ++ Sample.m_bot :: [Sample.m_bob]) Sample.bob
     = get_slack_id ([Sample.m_ann] ++ [Sample.m_bob]) Sample.bob.
Proof.
  destruct (get_slack_id_missing_fields Sample.bob Sample.m_bot
              [Sample.m_ann] [Sample.m_bob]) as (_ & _ & Hn & He & Hboth).
  split; [apply Hn; reflexivity|].
  split; [apply He; reflexivity|].
  apply Hboth; reflexivity.
Defined.

(** ** The directory loop *)

Section DirectoryLoop.

Variable token : string.

Lemma users_loop_done (pages : list page) (st : loop_state) :
  got_all_users st = true -> users_loop token pages st = ([], Returns st).
Proof. intros H. destruct pages; simpl; now rewrite H. Qed.

Lemma users_loop_cons (r : page) (pages : list page) (st : loop_state) :
  got_all_users st = false ->
  users_loop token (r :: pages) st
  = match loop_body r st with
    | Ok st' =>
        let '(t, o) := users_loop token pages st' in
        (users_request token (next_cursor st) :: t, o)
    | Raise e => ([users_request token (next_cursor st)], Raises e)
    end.
Proof.
  intros H. simpl. rewrite H.
  destruct (loop_body r st) as [st'|e]; simpl; [|reflexivity].
  now destruct (users_loop token pages st').
Qed.

Lemma users_loop_nil (st : loop_state) :
  got_all_users st = false -> users_loop token [] st = ([], Awaiting).
Proof. intros H. simpl. now rewrite H. Qed.

Lemma loop_body_users (r : page) (st st' : loop_state) :
  loop_body r st = Ok st' -> users st' = users st ++ page_members r.
Proof.
  unfold loop_body, page_members.
  assert (match members r with Some ms => users st ++ ms | None => users st end
          = users st ++ default [] (members r)) as ->.
  { destruct (members r); simpl; [reflexivity|now rewrite app_nil_r]. }
  destruct (response_metadata r) as [md|]; [|now intros [= <-]].
  destruct (not_empty_str md); [|now intros [= <-]].
  destruct (meta_getitem md "next_cursor"); simpl; [now intros [= <-]|discriminate].
Qed.

Lemma loop_body_raise (r : page) (st : loop_state) (e : exn) :
  loop_body r st = Raise e <->
  exists md, response_metadata r = Some md
    /\ not_empty_str md = true
    /\ meta_getitem md "next_cursor" = Raise e.
Proof.
  unfold loop_body. split.
  - destruct (response_metadata r) as [md|]; [|discriminate].
    destruct (not_empty_str md) eqn:Hne; [|discriminate].
    destruct (meta_getitem md "next_cursor") eqn:Hc; simpl; [discriminate|].
    intros [= <-]. eauto.
  - intros (md & -> & -> & ->). reflexivity.
Qed.

Lemma loop_body_ends (r : page) (st : loop_state) :
  ends r ->
  loop_body r st = Ok {| got_all_users := true;
                         users := users st ++ page_members r;
                         next_cursor := next_cursor st |}.
Proof.
  intros Hr. destruct (loop_body r st) as [st'|e] eqn:Hb.
  - pose proof (loop_body_users _ _ _ Hb) as Hu. revert Hb. unfold loop_body.
    destruct Hr as [->| ->]; simpl; intros [= <-]; simpl in Hu; now rewrite Hu.
  - apply loop_body_raise in Hb as (md & Hmd & Hne & _).
    destruct Hr as [Hr|Hr]; rewrite Hr in Hmd; [discriminate|].
    injection Hmd as <-. discriminate.
Qed.

Lemma loop_body_goes_on (r : page) (c : string) (st : loop_state) :
  goes_on r c ->
  loop_body r st = Ok {| got_all_users := got_all_users st;
                         users := users st ++ page_members r;
                         next_cursor := c |}.
Proof.
  intros (md & Hmd & Hne & Hc).
  destruct (loop_body r st) as [st'|e] eqn:Hb.
  - pose proof (loop_body_users _ _ _ Hb) as Hu. revert Hb. unfold loop_body.
    rewrite Hmd, Hne, Hc. simpl. intros [= <-]. simpl in Hu. now rewrite Hu.
  - apply loop_body_raise in Hb as (md' & Hmd' & _ & Hc').
    congruence.
Qed.

Lemma users_loop_returns_users (pages : list page) (st0 st : loop_state)
    (tr : list event) :
  users_loop token pages st0 = (tr, Returns st) ->
  users st = users st0 ++ concat (page_members <$> take (length tr) pages)
  /\ Forall (fun e => exists c, e = users_request token c) tr
  /\ (length tr <= length pages)%nat.
Proof.
  revert st0 tr. induction pages as [|r pages IH]; intros st0 tr;
    destruct (got_all_users st0) eqn:Hg.
  - rewrite users_loop_done by assumption. intros [= <- <-]. simpl.
    rewrite app_nil_r. repeat split; [constructor|lia].
  - rewrite users_loop_nil by assumption. discriminate.
  - rewrite users_loop_done by assumption. intros [= <- <-]. simpl.
    rewrite app_nil_r. repeat split; [constructor|lia].
  - rewrite users_loop_cons by assumption.
    destruct (loop_body r st0) as [st'|e] eqn:Hb; [|discriminate].
    destruct (users_loop token pages st') as [t o] eqn:Hl.
    intros [= <- ->]. destruct (IH _ _ Hl) as (Hu & Ht & Hlen).
    simpl. rewrite Hu, (loop_body_users _ _ _ Hb), <- app_assoc.
    repeat split; [constructor; eauto|lia].
Qed.

Lemma users_loop_returns (pre : list page) (r : page) (rest : list page)
    (st0 : loop_state) :
  got_all_users st0 = false ->
  Forall (fun p => exists c, goes_on p c) pre ->
  ends r ->
  exists tr st,
    users_loop token (pre ++ r :: rest) st0 = (tr, Returns st)
    /\ length tr = length (pre ++ [r])
    /\ users st = users st0 ++ concat (page_members <$> pre ++ [r]).
Proof.
  intros Hg Hpre Hr. revert st0 Hg.
  induction Hpre as [|p pre [c Hp] _ IH]; intros st0 Hg; cbn [app].
  - rewrite users_loop_cons, (loop_body_ends _ _ Hr) by assumption.
    rewrite users_loop_done by reflexivity.
    eexists _, _. split; [reflexivity|]. simpl. now rewrite app_nil_r.
  - rewrite users_loop_cons, (loop_body_goes_on _ _ _ Hp) by assumption.
    edestruct IH as (tr & st & -> & Hlen & Hu); [exact Hg|].
    eexists _, _. split; [reflexivity|]. cbn [length fmap list_fmap concat users] in *.
    rewrite Hu, Hlen, <- app_assoc. auto.
Qed.

End DirectoryLoop.

(** C9: the users the loop ends with are the concatenation, in fetch order,
    of what the fetched pages carry under [members]; a page without that key
    adds nothing, and only the handling of [response_metadata] can raise. *)
Theorem users_loop_accumulates (token : string) :
  (forall pages st0 tr st,
     users_loop token pages st0 = (tr, Returns st) ->
     users st = users st0 ++ concat (page_members <$> take (length tr) pages)
     /\ Forall (fun e => exists c, e = users_request token c) tr
     /\ (length tr <= length pages)%nat)
  /\ (forall pre r rest,
        Forall (fun p => exists c, goes_on p c) pre -> ends r ->
        exists tr st,
          users_loop token (pre ++ r :: rest) loop_init = (tr, Returns st)
          /\ length tr = length (pre ++ [r])
          /\ users st = concat (page_members <$> pre ++ [r]))
  /\ (forall r st st',
        loop_body r st = Ok st' ->
        users st' = users st ++ match members r with Some ms => ms | None => [] end)
  /\ (forall r st e,
        loop_body r st = Raise e <->
        exists md, response_metadata r = Some md
          /\ not_empty_str md = true
          /\ meta_getitem md "next_cursor" = Raise e).
Proof.
  split; [|split; [|split]].
  - intros pages st0 tr st. apply users_loop_returns_users.
  - intros pre r rest Hpre Hr.
    now apply (users_loop_returns token pre r rest loop_init).
  - intros r st st' H. apply loop_body_users in H. exact H.
  - intros r st e. apply loop_body_raise.
Qed.

Lemma users_loop_accumulates_witness :
  exists tr st,
    users_loop "xoxp-0000" Sample.three_pages loop_init = (tr, Returns st)
    /\ length tr = 3%nat
    /\ users st = [Sample.m_old_bob; Sample.m_ann; Sample.m_bob; Sample.m_cat].
Proof.
  destruct (users_loop_accumulates "xoxp-0000") as (_ & Hret & _).
  destruct (Hret (take 2 Sample.three_pages) (Sample.last_page (Some [Sample.m_bob; Sample.m_cat])) [])
    as (tr & st & Hrun & Hlen & Hu).
  - repeat constructor; eexists; eexists; repeat split.
  - now left.
  - exists tr, st. auto.
Defined.

(** C4, the code at the failing input: answered by pages whose
    [next_cursor] is the empty string, the loop asks again with the empty
    cursor after each one and is still asking after any number of them. *)
Theorem users_loop_empty_cursor_never_ends (token : string)
    (ms : list member) (n : nat) :
  users_loop token (replicate n (empty_cursor_page ms)) loop_init
  = (replicate n (users_request token ""), Awaiting).
Proof.
  enough (forall st, got_all_users st = false -> next_cursor st = "" ->
            users_loop token (replicate n (empty_cursor_page ms)) st
            = (replicate n (users_request token ""), Awaiting)) as H
    by now apply H.
  induction n as [|n IH]; intros st Hg Hc; simpl replicate.
  - now apply users_loop_nil.
  - rewrite users_loop_cons by assumption.
    rewrite (loop_body_goes_on _ "" st).
    + rewrite IH by (assumption || reflexivity). now rewrite Hc.
    + eexists. repeat split.
Qed.

(** ** The run *)

Section Run.

Lemma io_ret_bind {A B} (a : A) (k : A -> io B) : mret a ≫= k = k a.
Proof. unfold mbind, io_bind, mret, io_ret. simpl. now destruct (k a). Qed.

Lemma io_bind_returns {A B} (k : A -> io B) (t : list event) (a : A)
    (t' : list event) (o : outcome B) :
  k a = (t', o) -> ((t, Returns a) : io A) ≫= k = (t ++ t', o).
Proof. intros H. unfold mbind, io_bind. simpl. now rewrite H. Qed.

Lemma io_emit_step {B} (e : event) (k : unit -> io B) (t : list event)
    (o : outcome B) :
  k tt = (t, o) -> emit e ≫= k = (e :: t, o).
Proof. intros H. unfold mbind, io_bind, emit. simpl. now rewrite H. Qed.

Lemma requests_app (t1 t2 : list event) :
  requests (t1 ++ t2) = requests t1 ++ requests t2.
Proof. apply List.filter_app. Qed.

Lemma users_loop_trace (token : string) (pages : list page) (st : loop_state) :
  Forall (fun e => exists c, e = users_request token c)
    (users_loop token pages st).1.
Proof.
  revert st. induction pages as [|r pages IH]; intros st;
    destruct (got_all_users st) eqn:Hg.
  - rewrite users_loop_done by assumption. constructor.
  - rewrite users_loop_nil by assumption. constructor.
  - rewrite users_loop_done by assumption. constructor.
  - rewrite users_loop_cons by assumption.
    destruct (loop_body r st) as [st'|e]; [|repeat constructor; eauto].
    specialize (IH st'). destruct (users_loop token pages st'). simpl in *.
    constructor; eauto.
Qed.

Lemma requests_users_loop (token : string) (pages : list page)
    (st : loop_state) :
  requests (users_loop token pages st).1 = (users_loop token pages st).1.
Proof.
  pose proof (users_loop_trace token pages st) as H.
  induction H as [|e t [c ->] _ IH]; [reflexivity|].
  unfold requests in *. simpl. now rewrite IH.
Qed.

End Run.

Ltac io_step :=
  first [ apply io_emit_step | rewrite io_ret_bind ]; cbn beta.

Section MainFlow.

Variables (g : globals) (pd : pd_response) (pages : list page) (ack : string).

Lemma main_not_configured :
  ~ configured g ->
  main g pd pages ack = ([Print (Text missing_message)], Raises (SystemExit 1)).
Proof.
  intros H. unfold main.
  destruct (truthy (PAGERDUTY_APIKEY g)) eqn:H1,
           (truthy (PAGERDUTY_ONCALL_ESCALATION g)) eqn:H2,
           (truthy (SLACK_APIKEY g)) eqn:H3,
           (truthy (SLACK_USERGROUP_ID g)) eqn:H4; try reflexivity.
  exfalso. apply H. repeat split; assumption.
Qed.

Lemma main_overflow :
  configured g -> more pd = true ->
  main g pd pages ack
  = ([Print (Text (PAGERDUTY_ONCALL_URI g));
      Get (PAGERDUTY_ONCALL_URI g) (pagerduty_headers g);
      Print (Text overflow_message)],
     Raises (SystemExit 1)).
Proof.
  intros (H1 & H2 & H3 & H4) Hm. unfold main.
  rewrite H1, H2, H3, H4, Hm. cbn [negb orb].
  unfold print, sys_exit. repeat io_step. reflexivity.
Qed.

(** With a complete configuration and no overflow the run goes on to the
    directory. *)
Lemma main_proceeds (t : list event) (o : outcome unit) :
  configured g -> more pd = false ->
  resolve_and_update g (reduce 1 (transform_pagerduty_results pd))
    (reduce 2 (transform_pagerduty_results pd)) pages ack = (t, o) ->
  main g pd pages ack = (preamble g pd ++ t, o).
Proof.
  intros (H1 & H2 & H3 & H4) Hm Hrest. unfold main.
  rewrite H1, H2, H3, H4, Hm. cbn [negb orb].
  unfold print, preamble. cbn [app]. repeat io_step. exact Hrest.
Qed.

Lemma requests_preamble :
  requests (preamble g pd)
  = [Get (PAGERDUTY_ONCALL_URI g) (pagerduty_headers g)].
Proof. reflexivity. Qed.

(** The run from the directory fetch on, when the loop ends, both lists
    can be indexed and the directory is not empty. *)
Lemma resolve_and_update_returns (primary secondary : list oncall)
    (tr : list event) (st : loop_state) (p : oncall) (ps : list oncall)
    (u : member) (us : list member) (pid sid : option string) :
  users_loop (str (SLACK_APIKEY g)) pages loop_init = (tr, Returns st) ->
  primary = p :: ps ->
  users st = u :: us ->
  get_slack_id (users st) p = Ok pid ->
  match secondary with
  | [] => Ok None
  | s :: _ => get_slack_id (users st) s
  end = Ok sid ->
  resolve_and_update g primary secondary pages ack
  = (tr ++ [Print (Member u); Print (Text "Primary:"); Print (SlackId pid);
            Print (Text "Secondary:"); Print (SlackId sid)]
        ++ (if negb (truthy pid) || negb (truthy sid)
            then [Print (Text "Uh oh, couldn't find both on-calls in Slack")]
            else [])
        ++ [Print (Text (update_uri g pid sid)); Post (update_uri g pid sid);
            Print (Body ack)],
     Returns tt).
Proof.
  intros Hloop -> Hu Hp Hs. unfold resolve_and_update.
  rewrite Hloop. apply io_bind_returns.
  cbn [index lookup list_lookup lift]. rewrite io_ret_bind, Hp.
  cbn [lift]. rewrite io_ret_bind, Hu. cbn [index lookup list_lookup lift].
  rewrite io_ret_bind.
  assert ((if bool_decide (0 < length secondary)%nat
           then person ← lift (index secondary 0);
                lift (get_slack_id (u :: us) person)
           else mret None) = (mret sid : io (option string))) as ->.
  { rewrite <- Hu. destruct secondary as [|s ss]; simpl in *.
    - now injection Hs as <-.
    - rewrite Hs. reflexivity. }
  unfold print, update_uri. cbn [app]. repeat io_step.
  destruct (negb (truthy pid) || negb (truthy sid)); cbn [app];
    repeat io_step; reflexivity.
Qed.

Lemma requests_resolve_and_update (primary secondary : list oncall)
    (tr : list event) (st : loop_state) (p : oncall) (ps : list oncall)
    (u : member) (us : list member) (pid sid : option string) :
  users_loop (str (SLACK_APIKEY g)) pages loop_init = (tr, Returns st) ->
  primary = p :: ps ->
  users st = u :: us ->
  get_slack_id (users st) p = Ok pid ->
  match secondary with
  | [] => Ok None
  | s :: _ => get_slack_id (users st) s
  end = Ok sid ->
  (resolve_and_update g primary secondary pages ack).2 = Returns tt
  /\ requests (resolve_and_update g primary secondary pages ack).1
     = tr ++ [Post (update_uri g pid sid)].
Proof.
  intros Hloop Hprim Hu Hp Hs.
  rewrite (resolve_and_update_returns _ _ _ _ _ _ _ _ _ _ Hloop Hprim Hu Hp Hs).
  split; [reflexivity|]. cbn [fst].
  pose proof (requests_users_loop (str (SLACK_APIKEY g)) pages loop_init) as Hreq.
  rewrite Hloop in Hreq. cbn [fst] in Hreq.
  rewrite !requests_app, Hreq.
  destruct (negb (truthy pid) || negb (truthy sid)); reflexivity.
Qed.

(** Without a primary the run still fetches the directory and then fails
    on [primary[0]]. *)
Lemma resolve_and_update_no_primary (secondary : list oncall) :
  resolve_and_update g [] secondary pages ack
  = ((users_loop (str (SLACK_APIKEY g)) pages loop_init).1,
     match (users_loop (str (SLACK_APIKEY g)) pages loop_init).2 with
     | Returns _ => Raises IndexError
     | Raises e => Raises e
     | Awaiting => Awaiting
     end).
Proof.
  unfold resolve_and_update.
  destruct (users_loop (str (SLACK_APIKEY g)) pages loop_init) as [t [st|e|]];
    cbn [fst snd]; try reflexivity.
  rewrite <- (app_nil_r t) at 2. apply io_bind_returns. reflexivity.
Qed.

End MainFlow.

Example load_sample_globals : load_globals Sample.environ = Ok Sample.config.
Proof. vm_compute. reflexivity. Qed.

Example sample_directory :
  users_loop "xoxp-0000" Sample.three_pages loop_init
  = ([users_request "xoxp-0000" "";
      users_request "xoxp-0000" "dXNlcjpVMEFOTg==";
      users_request "xoxp-0000" "dXNlcjpVMEJPQg=="],
     Returns Sample.directory).
Proof. vm_compute. reflexivity. Qed.

(** The scenario of the specification: two primaries, one secondary, all in
    the directory. *)
Example script_scenario :
  let run := script Sample.environ
               (Sample.response [Sample.ann; Sample.bob; Sample.cat] false)
               Sample.three_pages "{'ok': true}" in
  run.2 = Returns tt
  /\ last (requests run.1)
     = Some (Post "https://mesosphere.slack.com/api/usergroups.users.update?token=xoxp-0000&usergroup=S0615G0KT&users=U0BOB,U0CAT").
Proof. split; vm_compute; reflexivity. Qed.

(** When both identifiers are resolved the update request lists the two,
    joined by a comma. *)
Lemma update_lists_both (g : globals) (p s : oncall) (ps ss : list oncall)
    (pages : list page) (ack : string) (tr : list event) (st : loop_state)
    (u : member) (us : list member) (pid sid : string) :
  users_loop (str (SLACK_APIKEY g)) pages loop_init = (tr, Returns st) ->
  users st = u :: us ->
  get_slack_id (users st) p = Ok (Some pid) ->
  get_slack_id (users st) s = Ok (Some sid) ->
  (resolve_and_update g (p :: ps) (s :: ss) pages ack).2 = Returns tt
  /\ requests (resolve_and_update g (p :: ps) (s :: ss) pages ack).1
     = tr ++ [Post (SLACK_USERGROUP_URI (SLACK_ORG_URL g) (str (SLACK_APIKEY g))
                      (str (SLACK_USERGROUP_ID g)) (pid +:+ "," +:+ sid))].
Proof.
  intros Hloop Hu Hp Hs.
  apply (requests_resolve_and_update g pages ack (p :: ps) (s :: ss) tr st p ps
           u us (Some pid) (Some sid)); auto.
Qed.

(** C2, the code at the failing input: when the primary resolves to [pid]
    and no record has level 2, the run issues one update request, and its
    [users] argument is [pid] followed by a comma and the word None. *)
Theorem update_lists_none_for_absent_secondary (g : globals) (p : oncall)
    (ps : list oncall) (pages : list page) (ack : string) (tr : list event)
    (st : loop_state) (u : member) (us : list member) (pid : string) :
  users_loop (str (SLACK_APIKEY g)) pages loop_init = (tr, Returns st) ->
  users st = u :: us ->
  get_slack_id (users st) p = Ok (Some pid) ->
  (resolve_and_update g (p :: ps) [] pages ack).2 = Returns tt
  /\ requests (resolve_and_update g (p :: ps) [] pages ack).1
     = tr ++ [Post (SLACK_USERGROUP_URI (SLACK_ORG_URL g) (str (SLACK_APIKEY g))
                      (str (SLACK_USERGROUP_ID g)) (pid +:+ ",None"))].
Proof.
  intros Hloop Hu Hp.
  apply (requests_resolve_and_update g pages ack (p :: ps) [] tr st p ps
           u us (Some pid) None); auto.
Qed.

Lemma update_lists_none_for_absent_secondary_witness :
  (resolve_and_update Sample.config [Sample.bob] [] Sample.three_pages "ok").2
  = Returns tt
  /\ requests
       (resolve_and_update Sample.config [Sample.bob] [] Sample.three_pages "ok").1
     = [users_request "xoxp-0000" "";
        users_request "xoxp-0000" "dXNlcjpVMEFOTg==";
        users_request "xoxp-0000" "dXNlcjpVMEJPQg=="]
       ++ [Post "https://mesosphere.slack.com/api/usergroups.users.update?token=xoxp-0000&usergroup=S0615G0KT&users=U0BOB,None"].
Proof.
  apply (update_lists_none_for_absent_secondary Sample.config Sample.bob []
           Sample.three_pages "ok" _ Sample.directory
           Sample.m_old_bob [Sample.m_ann; Sample.m_bob; Sample.m_cat] "U0BOB").
  - vm_compute. reflexivity.
  - reflexivity.
  - vm_compute. reflexivity.
Defined.

(** The [users] argument then names two members. *)
Example users_param_absent_secondary :
  users_param (Some "U0BOB") None = "U0BOB,None"
  /\ split_commas "U0BOB,None" = ["U0BOB"; "None"]
  /\ split_commas (users_param (Some "U0BOB") (Some "U0CAT")) = ["U0BOB"; "U0CAT"].
Proof. repeat split. Qed.

(** C3, the code at the failing input: with no level-1 record the reduction
    signals nothing; the run goes through the whole directory loop and only
    then fails, with an IndexError from [primary[0]]. *)
Theorem main_empty_primary (g : globals) (pd : pd_response) (pages : list page)
    (ack : string) :
  configured g ->
  more pd = false ->
  at_level 1 (transform_pagerduty_results pd) = [] ->
  requests (main g pd pages ack).1
  = Get (PAGERDUTY_ONCALL_URI g) (pagerduty_headers g)
      :: (users_loop (str (SLACK_APIKEY g)) pages loop_init).1
  /\ (main g pd pages ack).2
     = match (users_loop (str (SLACK_APIKEY g)) pages loop_init).2 with
       | Returns _ => Raises IndexError
       | Raises e => Raises e
       | Awaiting => Awaiting
       end.
Proof.
  intros Hc Hm Hp.
  pose proof (resolve_and_update_no_primary g pages ack
                (reduce 2 (transform_pagerduty_results pd))) as Hrest.
  assert (reduce 1 (transform_pagerduty_results pd) = []) as Hr.
  { unfold reduce. now rewrite Hp. }
  rewrite <- Hr in Hrest.
  rewrite (main_proceeds g pd pages ack _ _ Hc Hm Hrest).
  cbn [fst snd]. rewrite requests_app, requests_preamble, requests_users_loop.
  split; reflexivity.
Qed.

Lemma main_empty_primary_witness :
  requests (main Sample.config (Sample.response [Sample.cat] false)
              Sample.three_pages "ok").1
  = Get (PAGERDUTY_ONCALL_URI Sample.config) (pagerduty_headers Sample.config)
      :: (users_loop "xoxp-0000" Sample.three_pages loop_init).1
  /\ (main Sample.config (Sample.response [Sample.cat] false)
        Sample.three_pages "ok").2
     = match (users_loop "xoxp-0000" Sample.three_pages loop_init).2 with
       | Returns _ => Raises IndexError
       | Raises e => Raises e
       | Awaiting => Awaiting
       end.
Proof.
  apply (main_empty_primary Sample.config (Sample.response [Sample.cat] false)
           Sample.three_pages "ok").
  - repeat split.
  - reflexivity.
  - reflexivity.
Defined.

Example script_empty_primary :
  let run := script Sample.environ (Sample.response [Sample.cat] false)
               Sample.three_pages "ok" in
  run.2 = Raises IndexError
  /\ length (requests run.1) = 4%nat
  /\ exit_diagnostic run = None.
Proof. repeat split; vm_compute; reflexivity. Qed.

(** C6, as stated, fails on the diagnostic: the line printed on overflow is
    a fixed text without the escalation policy; of the lines of the run only
    the request URI printed beforehand contains it. *)
Lemma overflow_diagnostic_omits_policy :
  let pd := Sample.response [Sample.ann; Sample.cat] true in
  let run := script Sample.environ pd Sample.three_pages "ok" in
  getenv Sample.environ "PAGERDUTY_ONCALL_ESCALATION" = Some "PT20YPA"
  /\ more pd = true
  /\ exit_status run.2 = Some 1
  /\ exit_diagnostic run = Some overflow_message
  /\ contains "PT20YPA" overflow_message = false
  /\ List.filter (contains "PT20YPA") (lines run.1)
     = [PAGERDUTY_ONCALL_URI Sample.config].
Proof. repeat split; vm_compute; reflexivity. Qed.

(** C6 (amended): with a complete configuration, a PagerDuty response whose
    [more] is true makes the run print the request URI, issue that one
    request, print the fixed overflow text and exit with status 1, whatever
    [oncalls] holds; nothing else is requested. *)
Theorem overflow_aborts_after_one_request (g : globals) (pd : pd_response)
    (pages : list page) (ack : string) :
  configured g ->
  more pd = true ->
  main g pd pages ack
  = ([Print (Text (PAGERDUTY_ONCALL_URI g));
      Get (PAGERDUTY_ONCALL_URI g) (pagerduty_headers g);
      Print (Text overflow_message)],
     Raises (SystemExit 1))
  /\ exit_status (main g pd pages ack).2 = Some 1
  /\ exit_diagnostic (main g pd pages ack) = Some overflow_message
  /\ requests (main g pd pages ack).1
     = [Get (PAGERDUTY_ONCALL_URI g) (pagerduty_headers g)].
Proof.
  intros Hc Hm. rewrite (main_overflow g pd pages ack Hc Hm).
  repeat split.
Qed.

Lemma overflow_aborts_after_one_request_witness :
  main Sample.config (Sample.response [Sample.ann; Sample.cat] true)
    Sample.three_pages "ok"
  = ([Print (Text (PAGERDUTY_ONCALL_URI Sample.config));
      Get (PAGERDUTY_ONCALL_URI Sample.config) (pagerduty_headers Sample.config);
      Print (Text overflow_message)],
     Raises (SystemExit 1)).
Proof.
  apply (overflow_aborts_after_one_request Sample.config
           (Sample.response [Sample.ann; Sample.cat] true)
           Sample.three_pages "ok").
  - repeat split.
  - reflexivity.
Defined.

(** ** The configuration check *)

(** A missing PagerDuty key, Slack key or usergroup is reported and ends the
    run before any request, provided the escalation policy is set. *)
Lemma script_missing_value (environ : gmap string string) (pd : pd_response)
    (pages : list page) (ack e : string) :
  environ !! "PAGERDUTY_ONCALL_ESCALATION" = Some e ->
  truthy (environ !! "PAGERDUTY_APIKEY") = false
  \/ truthy (environ !! "SLACK_APIKEY") = false
  \/ truthy (environ !! "SLACK_USERGROUP_ID") = false ->
  script environ pd pages ack
  = ([Print (Text missing_message)], Raises (SystemExit 1)).
Proof.
  intros He Hmiss. unfold script, load_globals, getenv. rewrite He.
  cbn [concat_str mbind result_bind rbind mret result_ret].
  apply main_not_configured. unfold configured. cbn.
  intros (H1 & _ & H3 & H4). destruct Hmiss as [H|[H|H]]; congruence.
Qed.

Example missing_message_names :
  contains "PAGERDUTY_APIKEY" missing_message = true
  /\ contains "SLACK_APIKEY" missing_message = true
  /\ contains "SLACK_USERGROUP_ID" missing_message = true.
Proof. repeat split. Qed.

(** C8, the code at the failing input: with the escalation policy unset the
    concatenation that builds the request URI raises a TypeError before the
    check is reached, and nothing is printed; with it set to the empty string
    the check ends the run with status 1, but the message does not name
    PAGERDUTY_ONCALL_ESCALATION. *)
Theorem missing_escalation_not_reported (environ : gmap string string)
    (pd : pd_response) (pages : list page) (ack : string) :
  (environ !! "PAGERDUTY_ONCALL_ESCALATION" = None ->
   script environ pd pages ack = ([], Raises TypeError))
  /\ (environ !! "PAGERDUTY_ONCALL_ESCALATION" = Some "" ->
      script environ pd pages ack
      = ([Print (Text missing_message)], Raises (SystemExit 1)))
  /\ contains "PAGERDUTY_ONCALL_ESCALATION" missing_message = false.
Proof.
  split; [|split; [|reflexivity]].
  - intros He. unfold script, load_globals, getenv. now rewrite He.
  - intros He. unfold script, load_globals, getenv. rewrite He.
    cbn [concat_str mbind result_bind rbind mret result_ret].
    apply main_not_configured. unfold configured. cbn.
    intros (_ & H & _). discriminate.
Qed.

Lemma missing_escalation_not_reported_witness :
  script (delete "PAGERDUTY_ONCALL_ESCALATION" Sample.environ)
    (Sample.response [Sample.ann] false) Sample.three_pages "ok"
  = ([], Raises TypeError)
  /\ script (<["PAGERDUTY_ONCALL_ESCALATION" := ""]> Sample.environ)
       (Sample.response [Sample.ann] false) Sample.three_pages "ok"
     = ([Print (Text missing_message)], Raises (SystemExit 1)).
Proof.
  split.
  - apply (missing_escalation_not_reported
             (delete "PAGERDUTY_ONCALL_ESCALATION" Sample.environ)).
    vm_compute. reflexivity.
  - apply (missing_escalation_not_reported
             (<["PAGERDUTY_ONCALL_ESCALATION" := ""]> Sample.environ)).
    vm_compute. reflexivity.
Defined.

(** * Further properties of the script *)

(** ** Candidates and reduction *)

(** X1: the candidates of a level are the transformed PagerDuty entries
    with that escalation level, in the order the service sent them. *)
Theorem at_level_transform (lvl : Z) (r : pd_response) :
  at_level lvl (transform_pagerduty_results r)
  = transform_entry <$> filter (fun e => escalation_level e = lvl) (oncalls r).
Proof.
  unfold at_level, transform_pagerduty_results.
  induction (oncalls r) as [|e l IH]; [reflexivity|].
  rewrite fmap_cons, !filter_cons. cbn [level transform_entry].
  destruct (decide (escalation_level e = lvl)); rewrite IH; reflexivity.
Qed.

Lemma reduce_cases (lvl : Z) (l : list oncall) :
  (at_level lvl l = [] /\ reduce lvl l = [])
  \/ (exists r, latest (at_level lvl l) = Some r /\ reduce lvl l = [r]).
Proof.
  unfold reduce. destruct (at_level lvl l) as [|a [|b t]] eqn:E.
  - left. split; reflexivity.
  - right. exists a. split; reflexivity.
  - right. destruct (prioritize_latest (a :: b :: t)) as (r & Hr & Hp);
      [simpl; lia|]. eauto.
Qed.

(** X2: a level is reduced to at most one record; that record is one of the
    input with that level; and nothing is left exactly when the input has no
    record of the level. *)
Theorem reduce_at_most_one (lvl : Z) (l : list oncall) :
  (length (reduce lvl l) <= 1)%nat
  /\ (forall r, r ∈ reduce lvl l -> r ∈ l /\ level r = lvl)
  /\ (reduce lvl l = [] <-> forall r, r ∈ l -> level r <> lvl).
Proof.
  destruct (reduce_cases lvl l) as [[Hl ->]|(r & Hr & ->)].
  - split; [simpl; lia|]. split; [intros r Hr; inversion Hr|].
    split; [|reflexivity]. intros _ r Hr Hlvl.
    assert (r ∈ at_level lvl l) as Hin by (apply list_elem_of_filter; auto).
    rewrite Hl in Hin. inversion Hin.
  - split; [simpl; lia|]. split.
    + intros r' Hr'. apply list_elem_of_singleton in Hr' as ->.
      apply latest_max in Hr as [Hin _].
      apply list_elem_of_filter in Hin as [Hlvl Hin]. auto.
    + split; [discriminate|]. intros Hnone. exfalso.
      apply latest_max in Hr as [Hin _].
      apply list_elem_of_filter in Hin as [Hlvl Hin]. exact (Hnone r Hin Hlvl).
Qed.

(** X3: a record of another level has no part in the reduction of a level:
    taking it out of the input leaves the result as it is. *)
Theorem reduce_ignores_other_levels (lvl : Z) (x : oncall)
    (l1 l2 : list oncall) :
  level x <> lvl ->
  reduce lvl (l1 ++ x :: l2) = reduce lvl (l1 ++ l2).
Proof.
  intros Hx. unfold reduce, at_level.
  rewrite !filter_app, filter_cons. now rewrite decide_False.
Qed.

Lemma reduce_ignores_other_levels_witness :
  reduce 1 ([Sample.ann] ++ Sample.cat :: [Sample.bob])
  = reduce 1 ([Sample.ann] ++ [Sample.bob]).
Proof.
  apply (reduce_ignores_other_levels 1 Sample.cat [Sample.ann] [Sample.bob]).
  vm_compute. discriminate.
Defined.

(** X4: reducing what has been reduced changes nothing. *)
Theorem reduce_idempotent (lvl : Z) (l : list oncall) :
  reduce lvl (reduce lvl l) = reduce lvl l.
Proof.
  destruct (reduce_cases lvl l) as [[_ ->]|(r & Hr & ->)]; [reflexivity|].
  apply latest_max in Hr as [Hin _].
  apply list_elem_of_filter in Hin as [Hlvl _].
  unfold reduce, at_level. rewrite filter_cons, decide_True by assumption.
  reflexivity.
Qed.

Section SortModel.

Lemma insert_by_start_hd (v u : oncall) (s : list oncall) :
  HdRel le_start v s -> le_start v u -> HdRel le_start v (insert_by_start u s).
Proof.
  intros Hs Hu. destruct s as [|w s]; simpl; [now constructor|].
  destruct (String.ltb (start w) (start u)); constructor; [|assumption].
  now inversion Hs.
Qed.

Lemma insert_by_start_sorted (u : oncall) (s : list oncall) :
  Sorted le_start s -> Sorted le_start (insert_by_start u s).
Proof.
  induction s as [|v s IH]; intros Hs; simpl; [repeat constructor|].
  apply Sorted_inv in Hs as [Hs Hv].
  destruct (String.ltb (start v) (start u)) eqn:Hvu.
  - constructor; [auto|]. apply insert_by_start_hd; [assumption|].
    now apply StrOrder.ltb_true_leb.
  - constructor; [now constructor|]. constructor.
    now apply StrOrder.ltb_false_leb.
Qed.

Lemma insert_by_start_filter (s0 : string) (u : oncall) (s : list oncall) :
  filter (fun x => start x = s0) (insert_by_start u s)
  = filter (fun x => start x = s0) (u :: s).
Proof.
  induction s as [|v s IH]; simpl; [reflexivity|].
  destruct (String.ltb (start v) (start u)) eqn:Hvu; [|reflexivity].
  rewrite filter_cons, IH, !filter_cons.
  destruct (decide (start v = s0)) as [Hv|Hv],
           (decide (start u = s0)) as [Hu|Hu]; try reflexivity.
  exfalso. rewrite Hv, <- Hu in Hvu. apply StrOrder.ltb_leb_false in Hvu.
  now rewrite StrOrder.leb_refl in Hvu.
Qed.

End SortModel.

(** X5: the sort used for the tie-break rearranges its input, puts the
    [start]s in ascending order and keeps records with the same [start] in
    the order they came in. *)
Theorem sort_by_start_stable (l : list oncall) :
  sort_by_start l ≡ₚ l
  /\ StronglySorted le_start (sort_by_start l)
  /\ (forall s0, filter (fun x => start x = s0) (sort_by_start l)
                 = filter (fun x => start x = s0) l).
Proof.
  split; [apply sort_by_start_perm|]. split.
  - apply Sorted_StronglySorted.
    + intros a b c. apply StrOrder.leb_trans.
    + induction l as [|u l IH]; simpl; [constructor|].
      now apply insert_by_start_sorted.
  - intros s0. induction l as [|u l IH]; simpl; [reflexivity|].
    rewrite insert_by_start_filter, !filter_cons, IH. reflexivity.
Qed.

Example sort_by_start_sample :
  sort_by_start [Sample.bob; Sample.dan; Sample.cat; Sample.ann]
  = [Sample.dan; Sample.ann; Sample.cat; Sample.bob].
Proof. reflexivity. Qed.

(** ** Resolution over the directory *)

(** X6: over a directory made of two parts, a match in the first part is
    the result, and the second part is searched only when the first has
    none: members of earlier pages come before members of later ones. *)
Theorem get_slack_id_app (l1 l2 : list member) (person : oncall) :
  get_slack_id (l1 ++ l2) person
  = match get_slack_id l1 person with
    | Ok (Some i) => Ok (Some i)
    | Ok None => get_slack_id l2 person
    | Raise e => Raise e
    end.
Proof.
  induction l1 as [|m l1 IH]; [reflexivity|].
  rewrite <- app_comm_cons, !get_slack_id_cons.
  case_bool_decide; [reflexivity|exact IH].
Qed.

(** X7: deleted and restricted members have no part in the resolution:
    the directory without them resolves every person as the full one. *)
Theorem get_slack_id_ignores_inactive (members : list member) (person : oncall) :
  get_slack_id (filter active members) person = get_slack_id members person.
Proof.
  induction members as [|m members IH]; [reflexivity|].
  rewrite filter_cons. destruct (decide (active m)) as [Ha|Ha].
  - rewrite !get_slack_id_cons, IH. reflexivity.
  - rewrite IH, get_slack_id_cons. rewrite bool_decide_eq_false_2; [reflexivity|].
    intros (Hd & Hr & _). apply Ha. now split.
Qed.

(** X8: only the name and the email of a person count: two on-call records
    with the same name and email, whatever their level and dates, resolve to
    the same result. *)
Theorem get_slack_id_name_email (members : list member) (p q : oncall) :
  name p = name q -> email p = email q ->
  get_slack_id members p = get_slack_id members q.
Proof.
  intros Hn He. induction members as [|m members IH]; [reflexivity|].
  rewrite !get_slack_id_cons, IH.
  assert (eligible p m <-> eligible q m) as Hiff.
  { unfold eligible. now rewrite Hn, He. }
  now rewrite (bool_decide_ext _ _ Hiff).
Qed.

Lemma get_slack_id_name_email_witness :
  get_slack_id [Sample.m_ann; Sample.m_bob] Sample.bob
  = get_slack_id [Sample.m_ann; Sample.m_bob]
      (Sample.rotation "Bob" "bob@example.com" 2 "2024-02-15T09:00:00Z").
Proof.
  apply (get_slack_id_name_email [Sample.m_ann; Sample.m_bob] Sample.bob
           (Sample.rotation "Bob" "bob@example.com" 2 "2024-02-15T09:00:00Z"));
    reflexivity.
Defined.

(** ** The directory loop: cursors and errors *)

(** X9: the first directory request carries the empty cursor and every
    later one the [next_cursor] of the response before it; after the page
    that ends the loop nothing more is requested. *)
Theorem users_loop_cursor_chain (token : string) (pre : list page)
    (cs : list string) (r : page) (rest : list page) :
  Forall2 goes_on pre cs ->
  ends r ->
  (users_loop token (pre ++ r :: rest) loop_init).1
  = users_request token <$> ("" :: cs).
Proof.
  intros Hpre Hr.
  enough (forall st, got_all_users st = false ->
            (users_loop token (pre ++ r :: rest) st).1
            = users_request token <$> (next_cursor st :: cs)) as H
    by now apply H.
  induction Hpre as [|p c pre cs Hp _ IH]; intros st Hg; cbn [app].
  - rewrite users_loop_cons, (loop_body_ends _ _ Hr) by assumption.
    now rewrite users_loop_done.
  - rewrite users_loop_cons, (loop_body_goes_on _ _ _ Hp) by assumption.
    match goal with
    | |- context [users_loop token _ ?st'] => specialize (IH st' Hg)
    end.
    destruct (users_loop token (pre ++ r :: rest) _) as [t o].
    simpl in *. now rewrite IH.
Qed.

Lemma users_loop_cursor_chain_witness :
  (users_loop "xoxp-0000" Sample.three_pages loop_init).1
  = users_request "xoxp-0000"
      <$> ["" ; "dXNlcjpVMEFOTg=="; "dXNlcjpVMEJPQg=="].
Proof.
  apply (users_loop_cursor_chain "xoxp-0000" (take 2 Sample.three_pages)
           ["dXNlcjpVMEFOTg=="; "dXNlcjpVMEJPQg=="]
           (Sample.last_page (Some [Sample.m_bob; Sample.m_cat])) []).
  - repeat constructor; eexists; repeat split.
  - now left.
Defined.

(** X10: a response whose [response_metadata] is a string that is not empty
    stops the loop with a TypeError, and one whose [response_metadata] is a
    dict without [next_cursor] with a KeyError, right after the request that
    fetched it; the members gathered so far are not returned. *)
Theorem users_loop_malformed (token : string) (pre : list page) (r : page)
    (rest : list page) (e : exn) :
  Forall (fun p => exists c, goes_on p c) pre ->
  malformed r e ->
  exists tr,
    users_loop token (pre ++ r :: rest) loop_init = (tr, Raises e)
    /\ length tr = S (length pre).
Proof.
  intros Hpre Hr.
  assert (forall st, loop_body r st = Raise e) as Hbody.
  { intros st. apply loop_body_raise.
    destruct Hr as [(s' & Hmd & Hs & ->)|(d & Hmd & Hd & ->)].
    - exists (MetaStr s'). split; [assumption|]. split; [|reflexivity].
      simpl. apply negb_true_iff, String.eqb_neq. assumption.
    - exists (MetaDict d). split; [assumption|]. split; [reflexivity|].
      simpl. unfold getitem. now rewrite Hd. }
  enough (forall st, got_all_users st = false ->
            exists tr, users_loop token (pre ++ r :: rest) st = (tr, Raises e)
                       /\ length tr = S (length pre)) as H
    by now apply H.
  induction Hpre as [|p pre [c Hp] _ IH]; intros st Hg; cbn [app].
  - rewrite users_loop_cons, Hbody by assumption. eexists. split; reflexivity.
  - rewrite users_loop_cons, (loop_body_goes_on _ _ _ Hp) by assumption.
    match goal with
    | |- context [users_loop token _ ?st'] =>
        destruct (IH st' Hg) as (tr & -> & Hlen)
    end.
    eexists. split; [reflexivity|]. simpl. now rewrite Hlen.
Qed.

Lemma users_loop_malformed_witness :
  exists tr,
    users_loop "xoxp-0000"
      ([Sample.page_with_cursor (Some [Sample.m_ann]) "dXNlcjpVMEFOTg=="]
       ++ {| members := Some [Sample.m_bob];
             response_metadata := Some (MetaDict ∅) |} :: [])
      loop_init
    = (tr, Raises (KeyError "next_cursor"))
    /\ length tr = 2%nat.
Proof.
  apply (users_loop_malformed "xoxp-0000"
           [Sample.page_with_cursor (Some [Sample.m_ann]) "dXNlcjpVMEFOTg=="]).
  - repeat constructor. eexists; eexists; repeat split.
  - right. exists ∅. repeat split.
Defined.

(** ** The run as a whole *)

Section RunShape.

Variables (g : globals) (pd : pd_response) (pages : list page) (ack : string).

Lemma users_loop_cursors (token : string) (ps : list page) (st : loop_state) :
  exists cs, (users_loop token ps st).1 = users_request token <$> cs.
Proof.
  pose proof (users_loop_trace token ps st) as H.
  induction H as [|e t [c ->] _ [cs ->]]; [now exists []|].
  now exists (c :: cs).
Qed.

Lemma posts_users_requests (token : string) (cs : list string) :
  posts (users_request token <$> cs) = [].
Proof. induction cs as [|c cs IH]; [reflexivity|exact IH]. Qed.

Lemma requests_users_requests (token : string) (cs : list string) :
  requests (users_request token <$> cs) = users_request token <$> cs.
Proof.
  induction cs as [|c cs IH]; [reflexivity|].
  change (requests (users_request token <$> c :: cs))
    with (users_request token c :: requests (users_request token <$> cs)).
  now rewrite IH.
Qed.

Lemma configured_dec : configured g \/ ~ configured g.
Proof.
  unfold configured.
  destruct (truthy (PAGERDUTY_APIKEY g)), (truthy (PAGERDUTY_ONCALL_ESCALATION g)),
           (truthy (SLACK_APIKEY g)), (truthy (SLACK_USERGROUP_ID g));
    first [ left; repeat split; reflexivity
          | right; intros (? & ? & ? & ?); discriminate ].
Qed.

(** The directory is empty when the loop ends: [print(users[0])] fails. *)
Lemma resolve_and_update_empty_directory (primary secondary : list oncall)
    (tr : list event) (st : loop_state) (p : oncall) (ps : list oncall) :
  users_loop (str (SLACK_APIKEY g)) pages loop_init = (tr, Returns st) ->
  primary = p :: ps ->
  users st = [] ->
  resolve_and_update g primary secondary pages ack = (tr, Raises IndexError).
Proof.
  intros Hloop -> Hu. unfold resolve_and_update. rewrite Hloop.
  rewrite <- (app_nil_r tr) at 2. apply io_bind_returns.
  cbn [index lookup list_lookup lift]. rewrite io_ret_bind, Hu. reflexivity.
Qed.

(** Every way [resolve_and_update] can go. *)
Lemma resolve_and_update_cases (primary secondary : list oncall) :
  (exists tr o,
     resolve_and_update g primary secondary pages ack = (tr, o)
     /\ o <> Returns tt
     /\ tr = (users_loop (str (SLACK_APIKEY g)) pages loop_init).1)
  \/ (exists tr st p ps u us pid sid,
        users_loop (str (SLACK_APIKEY g)) pages loop_init = (tr, Returns st)
        /\ primary = p :: ps
        /\ users st = u :: us
        /\ get_slack_id (users st) p = Ok pid
        /\ match secondary with
           | [] => Ok None
           | s :: _ => get_slack_id (users st) s
           end = Ok sid).
Proof.
  destruct (users_loop (str (SLACK_APIKEY g)) pages loop_init) as [tr o] eqn:Hloop.
  destruct primary as [|p ps].
  { left. rewrite resolve_and_update_no_primary, Hloop. cbn [fst snd].
    eexists _, _. split; [reflexivity|]. split; [|reflexivity].
    destruct o; discriminate. }
  destruct o as [st|e|].
  - destruct (users st) as [|u us] eqn:Hu.
    + left. eexists _, _. split; [|split; [|reflexivity]].
      * exact (resolve_and_update_empty_directory _ secondary _ _ _ _
                 Hloop eq_refl Hu).
      * discriminate.
    + right. destruct (get_slack_id_total (u :: us) p) as [pid Hp].
      assert (exists sid, match secondary with
                          | [] => Ok None
                          | s :: _ => get_slack_id (u :: us) s
                          end = Ok sid) as [sid Hs].
      { destruct secondary as [|s ss]; [now exists None|].
        apply get_slack_id_total. }
      exists tr, st, p, ps, u, us, pid, sid. rewrite Hu. auto.
  - left. unfold resolve_and_update. rewrite Hloop.
    eexists _, _. split; [reflexivity|]. split; [discriminate|reflexivity].
  - left. unfold resolve_and_update. rewrite Hloop.
    eexists _, _. split; [reflexivity|]. split; [discriminate|reflexivity].
Qed.

End RunShape.

(** X11: with a complete configuration the requests of a run are, in this
    order, the one PagerDuty request, the directory requests and, exactly
    when the run returns normally, one update request at the very end; a run
    that stops in any other way has not written to the usergroup. *)
Theorem main_request_order (g : globals) (pd : pd_response)
    (pages : list page) (ack : string) :
  configured g ->
  exists cs,
    ((main g pd pages ack).2 = Returns tt
     /\ exists pid sid,
          requests (main g pd pages ack).1
          = Get (PAGERDUTY_ONCALL_URI g) (pagerduty_headers g)
              :: (users_request (str (SLACK_APIKEY g)) <$> cs)
              ++ [Post (update_uri g pid sid)])
    \/ ((main g pd pages ack).2 <> Returns tt
        /\ requests (main g pd pages ack).1
           = Get (PAGERDUTY_ONCALL_URI g) (pagerduty_headers g)
               :: (users_request (str (SLACK_APIKEY g)) <$> cs)).
Proof.
  intros Hc. destruct (more pd) eqn:Hm.
  { exists []. right. rewrite (main_overflow g pd pages ack Hc Hm).
    split; [discriminate|reflexivity]. }
  destruct (users_loop_cursors (str (SLACK_APIKEY g)) pages loop_init)
    as [cs Hcs].
  exists cs.
  destruct (resolve_and_update_cases g pages ack
              (reduce 1 (transform_pagerduty_results pd))
              (reduce 2 (transform_pagerduty_results pd)))
    as [(tr & o & Hrun & Ho & Htr)
       |(tr & st & p & ps & u & us & pid & sid & Hloop & Hp & Hu & Hpid & Hsid)].
  - right. rewrite (main_proceeds g pd pages ack _ _ Hc Hm Hrun). cbn [fst snd].
    split; [assumption|].
    rewrite requests_app, requests_preamble, Htr, Hcs,
      requests_users_requests. reflexivity.
  - left.
    destruct (requests_resolve_and_update g pages ack _ _ _ _ _ _ _ _ _ _
                Hloop Hp Hu Hpid Hsid) as [Hret Hreq].
    destruct (resolve_and_update g _ _ pages ack) as [t o] eqn:Hrun.
    rewrite (main_proceeds g pd pages ack _ _ Hc Hm Hrun). cbn [fst snd] in *.
    split; [assumption|]. exists pid, sid.
    rewrite requests_app, requests_preamble, Hreq.
    rewrite Hloop in Hcs. cbn [fst] in Hcs. now rewrite Hcs.
Qed.

Lemma main_request_order_witness :
  exists cs,
    ((main Sample.config (Sample.response [Sample.ann; Sample.bob] false)
        Sample.three_pages "ok").2 = Returns tt
     /\ exists pid sid,
          requests (main Sample.config
                      (Sample.response [Sample.ann; Sample.bob] false)
                      Sample.three_pages "ok").1
          = Get (PAGERDUTY_ONCALL_URI Sample.config)
                (pagerduty_headers Sample.config)
              :: (users_request (str (SLACK_APIKEY Sample.config)) <$> cs)
              ++ [Post (update_uri Sample.config pid sid)])
    \/ ((main Sample.config (Sample.response [Sample.ann; Sample.bob] false)
           Sample.three_pages "ok").2 <> Returns tt
        /\ requests (main Sample.config
                       (Sample.response [Sample.ann; Sample.bob] false)
                       Sample.three_pages "ok").1
           = Get (PAGERDUTY_ONCALL_URI Sample.config)
                 (pagerduty_headers Sample.config)
               :: (users_request (str (SLACK_APIKEY Sample.config)) <$> cs)).
Proof.
  apply (main_request_order Sample.config
           (Sample.response [Sample.ann; Sample.bob] false)
           Sample.three_pages "ok").
  repeat split.
Defined.

(** X12: when the directory comes back empty the run fails with an
    IndexError at [print(users[0])], after the primary has been looked up
    and before anything is sent to the usergroup. *)
Theorem main_empty_directory (g : globals) (pd : pd_response)
    (pages : list page) (ack : string) (tr : list event) (st : loop_state)
    (p : oncall) (ps : list oncall) :
  configured g ->
  more pd = false ->
  reduce 1 (transform_pagerduty_results pd) = p :: ps ->
  users_loop (str (SLACK_APIKEY g)) pages loop_init = (tr, Returns st) ->
  users st = [] ->
  main g pd pages ack = (preamble g pd ++ tr, Raises IndexError)
  /\ posts (preamble g pd ++ tr) = [].
Proof.
  intros Hc Hm Hp Hloop Hu.
  pose proof (resolve_and_update_empty_directory g pages ack _
                (reduce 2 (transform_pagerduty_results pd)) _ _ _ _
                Hloop Hp Hu) as Hrun.
  split; [exact (main_proceeds g pd pages ack _ _ Hc Hm Hrun)|].
  destruct (users_loop_cursors (str (SLACK_APIKEY g)) pages loop_init)
    as [cs Hcs].
  rewrite Hloop in Hcs. cbn [fst] in Hcs. subst tr.
  unfold posts. rewrite List.filter_app. fold (posts (users_request (str (SLACK_APIKEY g)) <$> cs)).
  now rewrite posts_users_requests.
Qed.

Lemma main_empty_directory_witness :
  main Sample.config (Sample.response [Sample.bob] false)
    [Sample.last_page None] "ok"
  = (preamble Sample.config (Sample.response [Sample.bob] false)
       ++ [users_request "xoxp-0000" ""],
     Raises IndexError)
  /\ posts (preamble Sample.config (Sample.response [Sample.bob] false)
            ++ [users_request "xoxp-0000" ""]) = [].
Proof.
  apply (main_empty_directory Sample.config (Sample.response [Sample.bob] false)
           [Sample.last_page None] "ok" [users_request "xoxp-0000" ""]
           {| got_all_users := true; users := []; next_cursor := "" |}
           Sample.bob []).
  - repeat split.
  - reflexivity.
  - reflexivity.
  - reflexivity.
  - reflexivity.
Defined.

(** X13: with a complete configuration, no overflow, a primary on call and
    a directory that is not empty, the run ends normally whether or not the
    two people are found: it prints the first member of the directory and
    the two results, prints the warning exactly when one of the results is
    None or empty, then prints the update URI, posts it and prints the
    answer. *)
Theorem main_completes (g : globals) (pd : pd_response) (pages : list page)
    (ack : string) (tr : list event) (st : loop_state) (p : oncall)
    (ps : list oncall) (u : member) (us : list member) :
  configured g ->
  more pd = false ->
  reduce 1 (transform_pagerduty_results pd) = p :: ps ->
  users_loop (str (SLACK_APIKEY g)) pages loop_init = (tr, Returns st) ->
  users st = u :: us ->
  exists pid sid,
    get_slack_id (users st) p = Ok pid
    /\ match reduce 2 (transform_pagerduty_results pd) with
       | [] => Ok None
       | s :: _ => get_slack_id (users st) s
       end = Ok sid
    /\ main g pd pages ack
       = (preamble g pd ++ tr
            ++ [Print (Member u); Print (Text "Primary:"); Print (SlackId pid);
                Print (Text "Secondary:"); Print (SlackId sid)]
            ++ (if negb (truthy pid) || negb (truthy sid)
                then [Print (Text warning)]
                else [])
            ++ [Print (Text (update_uri g pid sid)); Post (update_uri g pid sid);
                Print (Body ack)],
          Returns tt)
    /\ exit_status (main g pd pages ack).2 = Some 0.
Proof.
  intros Hc Hm Hp Hloop Hu.
  destruct (get_slack_id_total (users st) p) as [pid Hpid].
  assert (exists sid,
            match reduce 2 (transform_pagerduty_results pd) with
            | [] => Ok None
            | s :: _ => get_slack_id (users st) s
            end = Ok sid) as [sid Hsid].
  { destruct (reduce 2 (transform_pagerduty_results pd)) as [|s ss];
      [now exists None|apply get_slack_id_total]. }
  exists pid, sid. split; [assumption|]. split; [assumption|].
  pose proof (resolve_and_update_returns g pages ack _ _ _ _ _ _ _ _ _ _
                Hloop Hp Hu Hpid Hsid) as Hrun.
  rewrite (main_proceeds g pd pages ack _ _ Hc Hm Hrun).
  split; reflexivity.
Qed.

Lemma main_completes_witness :
  exists pid sid,
    get_slack_id (users Sample.directory) Sample.bob = Ok pid
    /\ match reduce 2 (transform_pagerduty_results
                         (Sample.response [Sample.ann; Sample.bob] false)) with
       | [] => Ok None
       | s :: _ => get_slack_id (users Sample.directory) s
       end = Ok sid
    /\ main Sample.config (Sample.response [Sample.ann; Sample.bob] false)
         Sample.three_pages "ok"
       = (preamble Sample.config (Sample.response [Sample.ann; Sample.bob] false)
            ++ (users_request "xoxp-0000"
                  <$> [""; "dXNlcjpVMEFOTg=="; "dXNlcjpVMEJPQg=="])
            ++ [Print (Member Sample.m_old_bob); Print (Text "Primary:");
                Print (SlackId pid);
                Print (Text "Secondary:"); Print (SlackId sid)]
            ++ (if negb (truthy pid) || negb (truthy sid)
                then [Print (Text warning)]
                else [])
            ++ [Print (Text (update_uri Sample.config pid sid));
                Post (update_uri Sample.config pid sid);
                Print (Body "ok")],
          Returns tt)
    /\ exit_status (main Sample.config
                      (Sample.response [Sample.ann; Sample.bob] false)
                      Sample.three_pages "ok").2 = Some 0.
Proof.
  apply (main_completes Sample.config
           (Sample.response [Sample.ann; Sample.bob] false)
           Sample.three_pages "ok" _ Sample.directory Sample.bob []
           Sample.m_old_bob [Sample.m_ann; Sample.m_bob; Sample.m_cat]).
  - repeat split.
  - reflexivity.
  - reflexivity.
  - vm_compute. reflexivity.
  - reflexivity.
Defined.

Lemma main_configured_first_request (g : globals) (pd : pd_response)
    (pages : list page) (ack : string) :
  configured g ->
  exists t,
    requests (main g pd pages ack).1
    = Get (PAGERDUTY_ONCALL_URI g) (pagerduty_headers g) :: t.
Proof.
  intros Hc. destruct (more pd) eqn:Hm.
  - rewrite (main_overflow g pd pages ack Hc Hm). now exists [].
  - destruct (resolve_and_update g (reduce 1 (transform_pagerduty_results pd))
                (reduce 2 (transform_pagerduty_results pd)) pages ack)
      as [t o] eqn:Hrun.
    rewrite (main_proceeds g pd pages ack _ _ Hc Hm Hrun). cbn [fst].
    rewrite requests_app, requests_preamble. now exists (requests t).
Qed.

(** X14: when the escalation policy is set, the script stops at the
    configuration check, printing the one message and exiting with status
    1 before any request, exactly when the policy is the empty string or one
    of the PagerDuty key, the Slack key and the usergroup is unset or
    empty. *)
Theorem script_stops_at_check_iff (environ : gmap string string)
    (pd : pd_response) (pages : list page) (ack e : string) :
  environ !! "PAGERDUTY_ONCALL_ESCALATION" = Some e ->
  script environ pd pages ack
  = ([Print (Text missing_message)], Raises (SystemExit 1))
  <-> (truthy (environ !! "PAGERDUTY_APIKEY") = false
       \/ e = ""
       \/ truthy (environ !! "SLACK_APIKEY") = false
       \/ truthy (environ !! "SLACK_USERGROUP_ID") = false).
Proof.
  intros He. unfold script, load_globals, getenv. rewrite He.
  cbn [concat_str mbind result_bind rbind mret result_ret].
  match goal with |- main ?g0 _ _ _ = _ <-> _ => set (g := g0) end.
  assert (configured g <->
          ~ (truthy (environ !! "PAGERDUTY_APIKEY") = false
             \/ e = ""
             \/ truthy (environ !! "SLACK_APIKEY") = false
             \/ truthy (environ !! "SLACK_USERGROUP_ID") = false)) as Hcfg.
  { unfold configured, g. cbn [PAGERDUTY_APIKEY PAGERDUTY_ONCALL_ESCALATION
                                SLACK_APIKEY SLACK_USERGROUP_ID truthy].
    rewrite negb_true_iff, String.eqb_neq.
    destruct (truthy (environ !! "PAGERDUTY_APIKEY")),
             (truthy (environ !! "SLACK_APIKEY")),
             (truthy (environ !! "SLACK_USERGROUP_ID"));
      destruct (decide (e = "")); intuition congruence. }
  split.
  - intros Hrun.
    destruct (decide (e = "")) as [|Hne]; [auto|].
    destruct (truthy (environ !! "PAGERDUTY_APIKEY")) eqn:H1; [|auto].
    destruct (truthy (environ !! "SLACK_APIKEY")) eqn:H3; [|auto].
    destruct (truthy (environ !! "SLACK_USERGROUP_ID")) eqn:H4; [|auto].
    exfalso.
    assert (configured g) as Hc.
    { apply Hcfg. intros [H|[H|[H|H]]]; congruence. }
    destruct (main_configured_first_request g pd pages ack Hc) as [t Hreq].
    rewrite Hrun in Hreq. discriminate.
  - intros Hmiss. apply main_not_configured. rewrite Hcfg. tauto.
Qed.

Lemma script_stops_at_check_iff_witness :
  script (<["SLACK_USERGROUP_ID" := ""]> Sample.environ)
    (Sample.response [Sample.ann] false) Sample.three_pages "ok"
  = ([Print (Text missing_message)], Raises (SystemExit 1)).
Proof.
  apply (script_stops_at_check_iff (<["SLACK_USERGROUP_ID" := ""]> Sample.environ)
           (Sample.response [Sample.ann] false) Sample.three_pages "ok"
           "PT20YPA").
  - vm_compute. reflexivity.
  - right. right. right. vm_compute. reflexivity.
Defined.
